(** * node-gdal: the global functions of [src/gdal.hpp]

    A shallow embedding of the V8 binding layer of node-gdal
    ([setConfigOption], [getConfigOption], [decToDMS], [invGeoTransform],
    [applyGeoTransform]) together with the properties its specification
    states about it.

    Conventions of the embedding.
    - A JavaScript Number is an IEEE double.  It is embedded as an exact
      rational or one of NaN, +Infinity, -Infinity ([number]); rounding,
      overflow of finite operations and the sign of zero are not modelled.
    - Arrays and objects are references into a heap ([world]), because
      [invGeoTransform] mutates the array it is handed and the same array
      may be handed in twice.
    - A binding method maps the argument vector [info] and the world to a
      [outcome] (value set through [GetReturnValue], or the exception
      scheduled by [Nan::ThrowError]) and the world afterwards.
    - The routines of the GDAL library that the bindings call are an
      interface ([GDALLib]); facts that only depend on the binding code are
      proved for every implementation of it, the others for the routines
      as the specification describes them ([spec_lib]).
    - The method [open] is embedded over an interface of its own
      ([OpenLib]) for the open routines and [Dataset::New]. *)

From Stdlib Require Import ZArith QArith Qcanon Qround String Ascii List Lia.
From Stdlib Require DecimalString.
From stdpp Require Import base gmap strings list fin_maps.

Local Open Scope Z_scope.

(** ** Numbers *)

Inductive number : Type :=
| Fin (q : Qc)
| PInf
| NInf
| NaN.

Definition isfinite (n : number) : bool :=
  match n with Fin _ => true | _ => false end.

(** The sign of a rational, as a comparison with zero. *)
Definition Qc_sgn (q : Qc) : comparison := (q ?= 0)%Qc.

(** [-a] *)
Definition nopp (a : number) : number :=
  match a with
  | Fin q => Fin (- q)%Qc
  | PInf => NInf
  | NInf => PInf
  | NaN => NaN
  end.

(** [a + b]; opposite infinities give NaN. *)
Definition nadd (a b : number) : number :=
  match a, b with
  | NaN, _ | _, NaN => NaN
  | Fin p, Fin q => Fin (p + q)%Qc
  | PInf, NInf | NInf, PInf => NaN
  | PInf, _ | _, PInf => PInf
  | NInf, _ | _, NInf => NInf
  end.

Definition inf_times (pos : bool) (q : Qc) : number :=
  match Qc_sgn q with
  | Eq => NaN
  | Gt => if pos then PInf else NInf
  | Lt => if pos then NInf else PInf
  end.

(** [a * b]; an infinity times zero gives NaN. *)
Definition nmul (a b : number) : number :=
  match a, b with
  | NaN, _ | _, NaN => NaN
  | Fin p, Fin q => Fin (p * q)%Qc
  | PInf, Fin q | Fin q, PInf => inf_times true q
  | NInf, Fin q | Fin q, NInf => inf_times false q
  | PInf, PInf | NInf, NInf => PInf
  | PInf, NInf | NInf, PInf => NInf
  end.

Definition nsub (a b : number) : number := nadd a (nopp b).

(** [1.0 / a]; the embedding has one zero, whose reciprocal is +Infinity. *)
Definition ninv (a : number) : number :=
  match a with
  | Fin q => if Qc_eq_dec q 0%Qc then PInf else Fin (/ q)%Qc
  | PInf | NInf => Fin 0%Qc
  | NaN => NaN
  end.

(** [a == 0.0] *)
Definition is_zero (a : number) : bool :=
  match a with
  | Fin q => if Qc_eq_dec q 0%Qc then true else false
  | _ => false
  end.

(** [a < 0.0] *)
Definition is_negative (a : number) : bool :=
  match a with
  | Fin q => match Qc_sgn q with Lt => true | _ => false end
  | NInf => true
  | _ => false
  end.

(** [Nan::New<Integer>(z)] and integer literals. *)
Definition of_Z (z : Z) : number := Fin (Qc_of_Z z).

(** ** JavaScript values and the heap *)

Definition loc := positive.

Inductive value : Type :=
| VUndefined
| VNull
| VBool (b : bool)
| VNumber (n : number)
| VString (s : string)
| VRef (l : loc).

Inductive object : Type :=
| OArray (elems : list value)
| OObject (props : gmap string value).

Record world : Type := World {
  heap : gmap loc object;
  config : gmap string string
}.

Definition IsString (v : value) : bool :=
  match v with VString _ => true | _ => false end.

Definition IsNumber (v : value) : bool :=
  match v with VNumber _ => true | _ => false end.

Definition IsNull (v : value) : bool :=
  match v with VNull => true | _ => false end.

Definition IsUndefined (v : value) : bool :=
  match v with VUndefined => true | _ => false end.

Definition IsArray (h : gmap loc object) (v : value) : bool :=
  match v with
  | VRef l => match h !! l with Some (OArray _) => true | _ => false end
  | _ => false
  end.

Definition IsObject (h : gmap loc object) (v : value) : bool :=
  match v with
  | VRef l => match h !! l with Some _ => true | None => false end
  | _ => false
  end.

(** [v->IsInt32()]: a Number whose value is an integer of 32 signed bits. *)
Definition IsInt32 (v : value) : bool :=
  match v with
  | VNumber (Fin q) =>
      Pos.eqb (Qden q) 1 && Z.leb (- 2 ^ 31) (Qnum q) && Z.ltb (Qnum q) (2 ^ 31)
  | _ => false
  end.

(** [v->NumberValue()] on a value that is a Number. *)
Definition NumberValue (v : value) : number :=
  match v with VNumber n => n | _ => NaN end.

(** [v->IntegerValue()] on a value that is an Int32. *)
Definition IntegerValue (v : value) : Z :=
  match v with VNumber (Fin q) => Qnum q | _ => 0 end.

(** [info[i]]: reading past the arguments given yields undefined. *)
Definition arg (info : list value) (i : nat) : value :=
  nth i info VUndefined.

(** Elements of the array a handle refers to. *)
Definition array_elems (h : gmap loc object) (l : loc) : list value :=
  match h !! l with Some (OArray es) => es | _ => [] end.

(** [a->Get(i)]: a hole or an index past the end reads as undefined. *)
Definition array_get (es : list value) (i : nat) : value :=
  nth i es VUndefined.

(** [a->Set(i, v)]: JavaScript extends the array when [i] is past its end,
    leaving holes (read as undefined) in between. *)
Definition array_set (es : list value) (i : nat) (v : value) : list value :=
  if (i <? length es)%nat then <[i := v]> es
  else es ++ replicate (i - length es) VUndefined ++ [v].

(** [obj->Get(key)] on a handle; an array has no such named property. *)
Definition object_get (h : gmap loc object) (l : loc) (key : string) : value :=
  match h !! l with
  | Some (OObject ps) => default VUndefined (ps !! key)
  | _ => VUndefined
  end.

(** [Nan::New<Object>()]: a handle that is not in use. *)
Definition alloc (h : gmap loc object) : loc := fresh (dom h).

(** ** Completions and the monad of a binding method *)

Inductive errkind : Type := Error | TypeError.

Inductive outcome (A : Type) : Type :=
| Ok (a : A)
| Throw (k : errkind) (msg : string).
Arguments Ok {A} a.
Arguments Throw {A} k msg.

Definition is_throw {A} (o : outcome A) : bool :=
  match o with Throw _ _ => true | Ok _ => false end.

Definition M (A : Type) : Type := world -> outcome A * world.

Definition ret {A} (a : A) : M A := fun w => (Ok a, w).

(** [Nan::ThrowError(msg); return;] *)
Definition throw {A} (k : errkind) (msg : string) : M A :=
  fun w => (Throw k msg, w).

Definition bind {A B} (m : M A) (f : A -> M B) : M B :=
  fun w =>
    match m w with
    | (Ok a, w') => f a w'
    | (Throw k msg, w') => (Throw k msg, w')
    end.

Notation "'do' x <- m ; f" := (bind m (fun x => f))
  (at level 10, x name, m at level 100, f at level 200).
Notation "m ;; f" := (bind m (fun _ => f))
  (at level 100, f at level 200, right associativity).

Definition get_heap : M (gmap loc object) := fun w => (Ok (heap w), w).

Definition set_heap (h : gmap loc object) (w : world) : world :=
  World h (config w).

Definition set_config (c : gmap string string) (w : world) : world :=
  World (heap w) c.

(** [a->Length()] *)
Definition Array_Length (a : loc) : M nat :=
  fun w => (Ok (length (array_elems (heap w) a)), w).

(** [a->Get(i)] *)
Definition Array_Get (a : loc) (i : nat) : M value :=
  fun w => (Ok (array_get (array_elems (heap w) a) i), w).

(** [a->Set(i, v)] *)
Definition Array_Set (a : loc) (i : nat) (v : value) : M unit :=
  fun w =>
    (Ok tt,
     set_heap (<[a := OArray (array_set (array_elems (heap w) a) i v)]> (heap w)) w).

(** [obj->Get(Nan::New(key))] *)
Definition Object_Get (o : loc) (key : string) : M value :=
  fun w => (Ok (object_get (heap w) o key), w).

(** [Nan::New<Object>()] *)
Definition New_Object : M loc :=
  fun w =>
    let l := alloc (heap w) in
    (Ok l, set_heap (<[l := OObject ∅]> (heap w)) w).

(** [obj->Set(Nan::New(key), v)] on an object made by [New_Object]. *)
Definition Object_Set (o : loc) (key : string) (v : value) : M unit :=
  fun w =>
    let ps := match heap w !! o with Some (OObject ps) => ps | _ => ∅ end in
    (Ok tt, set_heap (<[o := OObject (<[key := v]> ps)]> (heap w)) w).

(** ** Strings *)

(** A [std::string] built from a [char*], and [s.c_str()] read by a C
    routine: the bytes up to the first NUL. *)
Fixpoint c_str (s : string) : string :=
  match s with
  | EmptyString => EmptyString
  | String c r => if Ascii.eqb c "000" then EmptyString else String c (c_str r)
  end.

(** [*Nan::Utf8String(v)] on a value that is a String (line 92). *)
Definition Utf8String (v : value) : string :=
  match v with VString s => c_str s | _ => EmptyString end.

(** [toupper] of the C locale. *)
Definition toupper (c : ascii) : ascii :=
  let n := nat_of_ascii c in
  if ((97 <=? n) && (n <=? 122))%nat then ascii_of_nat (n - 32) else c.

(** ** Argument macros of [gdal_common.hpp] *)

(** Modelled from the spec: the macro [NODE_ARG_STR] of gdal_common.hpp,
    which is not among the sources.  Section 6 of the specification gives
    the argument as a string; the argument must be present and a String, and
    the variable receives it the way line 92 converts a String
    ([std::string] from [*Nan::Utf8String]). *)
Definition NODE_ARG_STR (info : list value) (num : nat) (name : string) : M string :=
  if (length info <? num + 1)%nat then throw Error (name ++ " must be given")
  else if negb (IsString (arg info num)) then throw TypeError (name ++ " must be a string")
  else ret (Utf8String (arg info num)).

(** Modelled from the spec: the macro [NODE_ARG_DOUBLE] of gdal_common.hpp,
    which is not among the sources.  Section 6 gives the argument as a real;
    it must be present and a Number. *)
Definition NODE_ARG_DOUBLE (info : list value) (num : nat) (name : string) : M number :=
  if (length info <? num + 1)%nat then throw Error (name ++ " must be given")
  else if negb (IsNumber (arg info num)) then throw TypeError (name ++ " must be a number")
  else ret (NumberValue (arg info num)).

(** Modelled from the spec: the macro [NODE_ARG_INT_OPT] of gdal_common.hpp,
    which is not among the sources.  Section 6 gives the argument as an
    optional integer with a default: when it is absent, null or undefined
    the variable keeps its value [var]. *)
Definition NODE_ARG_INT_OPT (info : list value) (num : nat) (name : string) (var : Z) : M Z :=
  if (num <? length info)%nat then
    if IsInt32 (arg info num) then ret (IntegerValue (arg info num))
    else if negb (IsNull (arg info num)) && negb (IsUndefined (arg info num))
    then throw TypeError (name ++ " must be an integer")
    else ret var
  else ret var.

(** Modelled from the spec: the macro [NODE_ARG_ARRAY] of gdal_common.hpp,
    which is not among the sources.  Section 6 gives the argument as a
    coefficient sequence; it must be present and an Array, and the variable
    receives the handle. *)
Definition NODE_ARG_ARRAY (info : list value) (num : nat) (name : string) : M loc :=
  if (length info <? num + 1)%nat then throw Error (name ++ " must be given")
  else
    do h <- get_heap;
    if negb (IsArray h (arg info num)) then throw TypeError (name ++ " must be an array")
    else match arg info num with VRef l => ret l | _ => throw TypeError (name ++ " must be an array") end.

(** Modelled from the spec: [SafeString::New] of gdal_common.hpp, which is
    not among the sources.  Section 6 gives the result of a lookup as
    [value|null]: a null pointer becomes null, a C string a String. *)
Definition SafeString_New (data : option string) : value :=
  match data with
  | None => VNull
  | Some s => VString s
  end.

(** ** Geotransform buffers *)

(** [double gt[6]] *)
Record gt : Type := GT {
  gt0 : number; gt1 : number; gt2 : number;
  gt3 : number; gt4 : number; gt5 : number
}.

(** [g[i]] for [i] in 0..5; no other index is ever used. *)
Definition gt_get (g : gt) (i : nat) : number :=
  match i with
  | 0%nat => gt0 g | 1%nat => gt1 g | 2%nat => gt2 g
  | 3%nat => gt3 g | 4%nat => gt4 g | 5%nat => gt5 g
  | _ => NaN
  end.

(** [g[i] = v] for [i] in 0..5. *)
Definition gt_set (g : gt) (i : nat) (v : number) : gt :=
  match i with
  | 0%nat => GT v (gt1 g) (gt2 g) (gt3 g) (gt4 g) (gt5 g)
  | 1%nat => GT (gt0 g) v (gt2 g) (gt3 g) (gt4 g) (gt5 g)
  | 2%nat => GT (gt0 g) (gt1 g) v (gt3 g) (gt4 g) (gt5 g)
  | 3%nat => GT (gt0 g) (gt1 g) (gt2 g) v (gt4 g) (gt5 g)
  | 4%nat => GT (gt0 g) (gt1 g) (gt2 g) (gt3 g) v (gt5 g)
  | 5%nat => GT (gt0 g) (gt1 g) (gt2 g) (gt3 g) (gt4 g) v
  | _ => g
  end.

Definition gt_values (g : gt) : list value :=
  [VNumber (gt0 g); VNumber (gt1 g); VNumber (gt2 g);
   VNumber (gt3 g); VNumber (gt4 g); VNumber (gt5 g)].

(** ** The GDAL routines the bindings call *)

(** The C interface, as the call sites use it.
    - [GDALInvGeoTransform in out] takes the contents of the output buffer
      on entry and returns the status and the contents on return.
    - [GDALApplyGeoTransform gt x y] returns what it stores through the two
      output pointers.
    - [GDALDecToDMS angle axis precision] returns a C string or a null
      pointer.
    - [CPLSetConfigOption name value] and [CPLGetConfigOption name default]
      act on the process-wide option store; a null pointer is [None]. *)
Class GDALLib : Type := {
  GDALInvGeoTransform : gt -> gt -> Z * gt;
  GDALApplyGeoTransform : gt -> number -> number -> number * number;
  GDALDecToDMS : number -> string -> Z -> option string;
  CPLSetConfigOption : string -> option string -> gmap string string -> gmap string string;
  CPLGetConfigOption : string -> option string -> gmap string string -> option string
}.

(** ** The binding methods (src/gdal.hpp) *)

Section Bindings.
Context {lib : GDALLib}.

(** Lines 79-102. *)
Definition setConfigOption (info : list value) : M value :=
  do name <- NODE_ARG_STR info 0 "name";
  if (length info <? 2)%nat then throw Error "string or null value must be provided"
  else if IsString (arg info 1) then
    let val := Utf8String (arg info 1) in
    fun w => (Ok VUndefined,
              set_config (CPLSetConfigOption (c_str name) (Some (c_str val)) (config w)) w)
  else if IsNull (arg info 1) || IsUndefined (arg info 1) then
    fun w => (Ok VUndefined,
              set_config (CPLSetConfigOption (c_str name) None (config w)) w)
  else throw Error "value must be a string or null".

(** Lines 104-112. *)
Definition getConfigOption (info : list value) : M value :=
  do name <- NODE_ARG_STR info 0 "name";
  fun w => (Ok (SafeString_New (CPLGetConfigOption (c_str name) None (config w))), w).

(** Lines 135-137: [axis[0] = toupper(axis[0])] on a non-empty string. *)
Definition capitalize (axis : string) : string :=
  match axis with
  | EmptyString => EmptyString
  | String c r => String (toupper c) r
  end.

(** Lines 125-144. *)
Definition decToDMS (info : list value) : M value :=
  do angle <- NODE_ARG_DOUBLE info 0 "angle";
  do axis <- NODE_ARG_STR info 1 "axis";
  do precision <- NODE_ARG_INT_OPT info 2 "precision" 2;
  let axis := capitalize axis in
  if negb (String.eqb axis "Lat") && negb (String.eqb axis "Long")
  then throw Error "Axis must be 'lat' or 'long'"
  else ret (SafeString_New (GDALDecToDMS angle (c_str axis) precision)).

(** Lines 177-184 and 226-233: the loop
    [for (i = 0; i < n_num; i++)], entered at index [i] with [k] rounds
    left, storing into [dfgtIn]. *)
Fixpoint read_coefficients (gtIn : loc) (i k : nat) (dfgtIn : gt) : M gt :=
  match k with
  | O => ret dfgtIn
  | S k' =>
      do val <- Array_Get gtIn i;
      if negb (IsNumber val) then throw Error "geotransform array must only contain numbers"
      else read_coefficients gtIn (S i) k' (gt_set dfgtIn i (NumberValue val))
  end.

(** Lines 159-196.  [dfgtIn] and [dfgtOut] are the contents of the two
    automatic arrays on entry, which the code does not initialise. *)
Definition invGeoTransform (dfgtIn dfgtOut : gt) (info : list value) : M value :=
  do gtIn <- NODE_ARG_ARRAY info 0 "gtIn";
  do gtOut <- NODE_ARG_ARRAY info 1 "gtOut";
  do n_num <- Array_Length gtIn;
  if negb (n_num =? 6)%nat then throw Error "Input geotransform array length must equal 6"
  else
    do dfgtIn <- read_coefficients gtIn 0 n_num dfgtIn;
    let '(stat, dfgtOut) := GDALInvGeoTransform dfgtIn dfgtOut in
    Array_Set gtOut 0 (VNumber (gt_get dfgtOut 0));;
    Array_Set gtOut 1 (VNumber (gt_get dfgtOut 1));;
    Array_Set gtOut 2 (VNumber (gt_get dfgtOut 2));;
    Array_Set gtOut 3 (VNumber (gt_get dfgtOut 3));;
    Array_Set gtOut 4 (VNumber (gt_get dfgtOut 4));;
    Array_Set gtOut 5 (VNumber (gt_get dfgtOut 5));;
    ret (VNumber (of_Z stat)).

(** Lines 235-248: the point, given as one object or as two numbers. *)
Definition point_argument (info : list value) : M (number * number) :=
  do h <- get_heap;
  if (length info =? 2)%nat && IsObject h (arg info 1) then
    match arg info 1 with
    | VRef obj =>
        do arg_x <- Object_Get obj "x";
        do arg_y <- Object_Get obj "y";
        if negb (IsNumber arg_x) || negb (IsNumber arg_y)
        then throw Error "point must contain numerical properties x and y"
        else ret (NumberValue arg_x, NumberValue arg_y)
    | _ => throw Error "point must contain numerical properties x and y"
    end
  else
    do x <- NODE_ARG_DOUBLE info 1 "x";
    do y <- NODE_ARG_DOUBLE info 2 "y";
    ret (x, y).

(** Lines 209-258.  [dfgtIn] is the content of the automatic array on
    entry. *)
Definition applyGeoTransform (dfgtIn : gt) (info : list value) : M value :=
  do gtIn <- NODE_ARG_ARRAY info 0 "gtIn";
  do n_num <- Array_Length gtIn;
  if negb (n_num =? 6)%nat then throw Error "Input geotransform array length must equal 6"
  else
    do dfgtIn <- read_coefficients gtIn 0 n_num dfgtIn;
    do xy <- point_argument info;
    let '(xout, yout) := GDALApplyGeoTransform dfgtIn (fst xy) (snd xy) in
    do result <- New_Object;
    Object_Set result "x" (VNumber xout);;
    Object_Set result "y" (VNumber yout);;
    ret (VRef result).

End Bindings.

(** ** The GDAL routines, as the specification describes them *)

Module Spec.

(** Modelled from the spec: [GDALApplyGeoTransform] belongs to the GDAL
    library and is not among the sources.  Section 3:
    [geoX = c0 + pixelCol * c1 + pixelRow * c2],
    [geoY = c3 + pixelCol * c4 + pixelRow * c5]. *)
Definition GDALApplyGeoTransform (g : gt) (x y : number) : number * number :=
  (nadd (nadd (gt0 g) (nmul x (gt1 g))) (nmul y (gt2 g)),
   nadd (nadd (gt3 g) (nmul x (gt4 g))) (nmul y (gt5 g))).

(** Modelled from the spec: section 4.2, [det = c1*c5 - c2*c4], the first
    step of [GDALInvGeoTransform]. *)
Definition det (g : gt) : number :=
  nsub (nmul (gt1 g) (gt5 g)) (nmul (gt2 g) (gt4 g)).

(** Modelled from the spec: [GDALInvGeoTransform] belongs to the GDAL
    library and is not among the sources.  Section 4.2: when [det] is
    exactly zero the inversion fails (status 0; the specification does not
    say what the output buffer holds then, it is left as it was); otherwise
    [invDet = 1/det] and the six coefficients are those of section 4.2,
    with status 1. *)
Definition GDALInvGeoTransform (gt_in gt_out : gt) : Z * gt :=
  if is_zero (det gt_in) then (0, gt_out)
  else
    let invDet := ninv (det gt_in) in
    let c1' := nmul (gt5 gt_in) invDet in
    let c2' := nmul (nopp (gt2 gt_in)) invDet in
    let c4' := nmul (nopp (gt4 gt_in)) invDet in
    let c5' := nmul (gt1 gt_in) invDet in
    let c0' := nsub (nmul (nopp (gt0 gt_in)) c1') (nmul (gt3 gt_in) c2') in
    let c3' := nsub (nmul (nopp (gt0 gt_in)) c4') (nmul (gt3 gt_in) c5') in
    (1, GT c0' c1' c2' c3' c4' c5').

(** Modelled from the spec: the [floor] of steps 3 and 4 of section 4.3. *)
Definition Qcfloor (q : Qc) : Z := Qfloor q.

(** Modelled from the spec: the rounding of step 5 of section 4.3, on a
    non-negative rational, to the nearest integer; the specification names
    no rule for a tie, a half goes up. *)
Definition Qcround (q : Qc) : Z := Qcfloor (q + Q2Qc (1 # 2))%Qc.

(** Modelled from the spec: step 2 of section 4.3,
    [absAngle = |angleDegrees|]. *)
Definition Qcabs (q : Qc) : Qc :=
  match Qc_sgn q with Lt => (- q)%Qc | _ => q end.

(** Modelled from the spec: [{degrees}] and [{minutes}] of step 6 of
    section 4.3, the decimal numeral of a non-negative integer. *)
Definition decimal (n : Z) : string :=
  DecimalString.NilZero.string_of_uint (N.to_uint (Z.to_N n)).

(** Modelled from the spec: the fractional digits of step 6 of section 4.3,
    the [p] low decimal digits of [n], in front of [acc]. *)
Fixpoint low_digits (p : nat) (n : Z) (acc : string) : string :=
  match p with
  | O => acc
  | S p' => low_digits p' (n / 10) (String (ascii_of_nat (48 + Z.to_nat (n mod 10))) acc)
  end.

(** Modelled from the spec: [{seconds:.{precision}f}] of step 6 of section
    4.3, for the seconds given as a count [s] of units of [10^-p]. *)
Definition fixed (s : Z) (p : nat) : string :=
  match p with
  | O => decimal s
  | S _ => decimal (s / 10 ^ Z.of_nat p) ++ "." ++ low_digits p (s mod 10 ^ Z.of_nat p) EmptyString
  end.

(** Modelled from the spec: the double quote that follows the seconds in
    step 6 of section 4.3. *)
Definition dquote : string := String "034" EmptyString.

(** Modelled from the spec: step 6 of section 4.3. *)
Definition render (degrees minutes s : Z) (p : nat) (hemisphere : string) : string :=
  decimal degrees ++ "d" ++ decimal minutes ++ "'" ++ fixed s p ++ dquote ++ hemisphere.

(** Modelled from the spec: steps 3 to 5 of section 4.3 on the absolute
    angle: degrees, minutes and the seconds as a count of units of
    [10^-p], before any carry. *)
Definition split_angle (absAngle : Qc) (p : nat) : Z * Z * Z :=
  let degrees := Qcfloor absAngle in
  let minutesFull := ((absAngle - Qc_of_Z degrees) * Qc_of_Z 60)%Qc in
  let minutes := Qcfloor minutesFull in
  let seconds := ((minutesFull - Qc_of_Z minutes) * Qc_of_Z 60)%Qc in
  (degrees, minutes, Qcround (seconds * Qc_of_Z (10 ^ Z.of_nat p))%Qc).

(** Modelled from the spec: the two carries of step 5 of section 4.3. *)
Definition carry (dms : Z * Z * Z) (p : nat) : Z * Z * Z :=
  let '(degrees, minutes, s) := dms in
  let '(minutes, s) :=
    if s =? 60 * 10 ^ Z.of_nat p then (minutes + 1, 0) else (minutes, s) in
  if minutes =? 60 then (degrees + 1, 0, s) else (degrees, minutes, s).

(** Modelled from the spec: step 1 of section 4.3, on the axis token the
    binding passes on. *)
Definition hemisphere (axis : string) (angle : Qc) : option string :=
  let negative := match Qc_sgn angle with Lt => true | _ => false end in
  if String.eqb axis "Lat" then Some (if negative then "S" else "N")
  else if String.eqb axis "Long" then Some (if negative then "W" else "E")
  else None.

(** Modelled from the spec: [GDALDecToDMS] belongs to the GDAL library and
    is not among the sources.  Section 4.3, steps 1 to 6; a non-finite
    angle, an axis that is neither token and a negative precision are the
    failures of sections 4.3 and 7, for which a C routine returning a
    string has the null pointer.  The specification rounds the seconds
    without naming the rule for a tie; a half goes up here. *)
Definition GDALDecToDMS (angle : number) (axis : string) (precision : Z) : option string :=
  match angle with
  | Fin a =>
      if precision <? 0 then None
      else
        match hemisphere axis a with
        | None => None
        | Some h =>
            let p := Z.to_nat precision in
            let '(degrees, minutes, s) := carry (split_angle (Qcabs a) p) p in
            Some (render degrees minutes s p h)
        end
  | _ => None
  end.

(** Modelled from the spec: [CPLSetConfigOption] belongs to the GDAL library
    and is not among the sources.  Section 6: [set(name, value|null)] on a
    key/value store, where null clears the name. *)
Definition CPLSetConfigOption (name : string) (val : option string)
    (store : gmap string string) : gmap string string :=
  match val with
  | Some v => <[name := v]> store
  | None => delete name store
  end.

(** Modelled from the spec: [CPLGetConfigOption] belongs to the GDAL library
    and is not among the sources.  Section 6: [get(name) -> value|null];
    the second argument is what an unset name reads as. *)
Definition CPLGetConfigOption (name : string) (dflt : option string)
    (store : gmap string string) : option string :=
  match store !! name with
  | Some v => Some v
  | None => dflt
  end.

End Spec.

#[export] Instance spec_lib : GDALLib := {|
  GDALInvGeoTransform := Spec.GDALInvGeoTransform;
  GDALApplyGeoTransform := Spec.GDALApplyGeoTransform;
  GDALDecToDMS := Spec.GDALDecToDMS;
  CPLSetConfigOption := Spec.CPLSetConfigOption;
  CPLGetConfigOption := Spec.CPLGetConfigOption
|}.

(** ** Vocabulary of the statements *)

(** The two spellings of each axis that line 138 lets through. *)
Definition is_lat (t : string) : Prop := t = "lat"%string \/ t = "Lat"%string.
Definition is_long (t : string) : Prop := t = "long"%string \/ t = "Long"%string.

(** The optional third argument of [decToDMS], when it is given as an
    integer. *)
Definition precision_arg (p : option Z) : list value :=
  match p with
  | None => []
  | Some z => [VNumber (of_Z z)]
  end.

(** The range of a C [int]. *)
Definition int32 (z : Z) : Prop := - 2 ^ 31 <= z < 2 ^ 31.

(** The two shapes lines 235-248 take the point in. *)
Inductive point_given (w : world) (x y : number) : list value -> Prop :=
| point_scalars : point_given w x y [VNumber x; VNumber y]
| point_object (o : loc) (ps : gmap string value) :
    heap w !! o = Some (OObject ps) ->
    ps !! "x"%string = Some (VNumber x) ->
    ps !! "y"%string = Some (VNumber y) ->
    point_given w x y [VRef o].

(** The object lines 252-254 build. *)
Definition xy_object (x y : number) : object :=
  OObject (<["y"%string := VNumber y]> (<["x"%string := VNumber x]> ∅)).

(** The coefficient array passes lines 171-184 and 220-233: six elements,
    all of them Numbers. *)
Definition acceptable (es : list value) : bool :=
  (length es =? 6)%nat && forallb IsNumber es.

(** Six finite coefficients. *)
Definition fin_gt (c0 c1 c2 c3 c4 c5 : Qc) : gt :=
  GT (Fin c0) (Fin c1) (Fin c2) (Fin c3) (Fin c4) (Fin c5).
Arguments fin_gt (c0 c1 c2 c3 c4 c5)%_Qc.

(** The point a completion carries: the Number properties [x] and [y] of
    the object returned. *)
Definition returned_point (r : outcome value * world) : option (number * number) :=
  match r with
  | (Ok (VRef l), w) =>
      match object_get (heap w) l "x", object_get (heap w) l "y" with
      | VNumber x, VNumber y => Some (x, y)
      | _, _ => None
      end
  | _ => None
  end.

(** A buffer for the concrete instances, standing for uninitialised
    storage. *)
Definition nan_gt : gt := GT NaN NaN NaN NaN NaN NaN.

(** The Number of a rational literal. *)
Definition num (q : Q) : value := VNumber (Fin (Q2Qc q)).

(** A world for the concrete instances.  Handle 1 holds the all-zero transform, handle 2 a one-element array,
    handle 3 the transform (10, 2, 0, 20, 0, 4), handle 4 an empty array,
    handle 5 six coefficients the first of which is NaN, handle 6 a
    five-element array. *)
Definition sample_world : world :=
  World (<[1%positive := OArray (gt_values (GT (of_Z 0) (of_Z 0) (of_Z 0) (of_Z 0) (of_Z 0) (of_Z 0)))]>
        (<[2%positive := OArray [VString "kept?"]]>
        (<[3%positive := OArray (gt_values (GT (of_Z 10) (of_Z 2) (of_Z 0) (of_Z 20) (of_Z 0) (of_Z 4)))]>
        (<[4%positive := OArray []]>
        (<[5%positive := OArray (gt_values (GT NaN (of_Z 1) (of_Z 0) (of_Z 0) (of_Z 0) (of_Z 1)))]>
        (<[6%positive := OArray [num 0; num 1; num 0; num 0; num 0]]> ∅))))))
        ∅.

(** ** The method [open] (lines 27-77) *)

(** Modelled from the spec: the macro [NODE_ARG_OPT_STR] of gdal_common.hpp,
    which is not among the sources.  Section 6 gives the access mode as a
    string with the values r and r+; line 32 gives the variable its value
    when the argument is absent.  As for [NODE_ARG_INT_OPT], null and
    undefined leave the variable as it is. *)
Definition NODE_ARG_OPT_STR (info : list value) (num : nat) (name : string)
    (var : string) : M string :=
  if (num <? length info)%nat then
    if IsString (arg info num) then ret (Utf8String (arg info num))
    else if negb (IsNull (arg info num)) && negb (IsUndefined (arg info num))
    then throw TypeError (name ++ " must be a string")
    else ret var
  else ret var.

(** What [open] uses of the GDAL and OGR libraries and of gdal_dataset.hpp,
    none of which is among the sources: the major version the addon is
    compiled against, the access constants, the three open routines (a null
    pointer is [None]; the files they look at do not change during the
    call) and the two overloads of [Dataset::New], which wrap a data source
    in a JavaScript object. *)
Class OpenLib : Type := {
  GDAL_VERSION_MAJOR : Z;
  GA_ReadOnly : Z;
  GA_Update : Z;
  GDAL_OF_READONLY : Z;
  GDAL_OF_UPDATE : Z;
  OGRDataSource : Type;
  GDALDataset : Type;
  OGRSFDriverRegistrar_Open : string -> Z -> option OGRDataSource;
  GDALOpen : string -> Z -> option GDALDataset;
  GDALOpenEx : string -> Z -> option GDALDataset;
  Dataset_New_ogr : OGRDataSource -> M value;
  Dataset_New_gdal : GDALDataset -> M value
}.

(** The message of lines 42 and 64, which quotes the two modes. *)
Definition invalid_open_mode : string :=
  "Invalid open mode. Must be " ++ String "034" "r" ++ String "034" " or "
  ++ String "034" "r+" ++ String "034" EmptyString.

Section Open.
Context {olib : OpenLib}.

(** Lines 46-56: the OGR registrar first, then GDAL. *)
Definition open_before_2 (path : string) (access : Z) : M value :=
  match OGRSFDriverRegistrar_Open (c_str path) access with
  | Some ogr_ds => Dataset_New_ogr ogr_ds
  | None =>
      match GDALOpen (c_str path) access with
      | Some gdal_ds => Dataset_New_gdal gdal_ds
      | None => throw Error "Error opening dataset"
      end
  end.

(** Lines 68-72. *)
Definition open_from_2 (path : string) (flags : Z) : M value :=
  match GDALOpenEx (c_str path) flags with
  | Some ds => Dataset_New_gdal ds
  | None => throw Error "Error opening dataset"
  end.

(** Lines 27-77; the conditional compilation on [GDAL_VERSION_MAJOR] is a
    test on the constant. *)
Definition open (info : list value) : M value :=
  do path <- NODE_ARG_STR info 0 "path";
  do mode <- NODE_ARG_OPT_STR info 1 "mode" "r";
  if GDAL_VERSION_MAJOR <? 2 then
    if String.eqb mode "r+" then open_before_2 path GA_Update
    else if negb (String.eqb mode "r") then throw Error invalid_open_mode
    else open_before_2 path GA_ReadOnly
  else
    if String.eqb mode "r+" then open_from_2 path (Z.lor 0 GDAL_OF_UPDATE)
    else if String.eqb mode "r" then open_from_2 path (Z.lor 0 GDAL_OF_READONLY)
    else throw Error invalid_open_mode.

End Open.

(** A library in which nothing opens, for the concrete instances. *)
Definition closed_lib (major : Z) : OpenLib := {|
  GDAL_VERSION_MAJOR := major;
  GA_ReadOnly := 0;
  GA_Update := 1;
  GDAL_OF_READONLY := 0;
  GDAL_OF_UPDATE := 1;
  OGRDataSource := unit;
  GDALDataset := unit;
  OGRSFDriverRegistrar_Open := fun _ _ => None;
  GDALOpen := fun _ _ => None;
  GDALOpenEx := fun _ _ => None;
  Dataset_New_ogr := fun _ => ret VNull;
  Dataset_New_gdal := fun _ => ret VNull
|}.

(** A second world for the concrete instances: handle 1 holds the
    transform (10, 2, 0, 20, 0, 4), handle 2 the object with [x] 1 and
    [y] 2. *)
Definition point_world : world :=
  World (<[1%positive := OArray (gt_values (GT (of_Z 10) (of_Z 2) (of_Z 0) (of_Z 20) (of_Z 0) (of_Z 4)))]>
        (<[2%positive := OObject (<["x"%string := VNumber (of_Z 1)]>
                                   (<["y"%string := VNumber (of_Z 2)]> ∅))]> ∅))
        ∅.

(** The transform (10, 2, 0, 20, 0, 4). *)
Definition sample_gt : gt := GT (of_Z 10) (of_Z 2) (of_Z 0) (of_Z 20) (of_Z 0) (of_Z 4).

(** * Properties *)

(** ** Rationals: floor and rounding *)

Lemma Qcfloor_bounds (q : Qc) :
  (Qc_of_Z (Spec.Qcfloor q) <= q)%Qc /\ (q < Qc_of_Z (Spec.Qcfloor q + 1))%Qc.
Proof.
  split.
  - apply Qfloor_le.
  - apply Qlt_floor.
Qed.

Lemma Qcfloor_unique (q : Qc) (z : Z) :
  (Qc_of_Z z <= q)%Qc -> (q < Qc_of_Z (z + 1))%Qc -> Spec.Qcfloor q = z.
Proof.
  intros Hle Hlt.
  destruct (Qcfloor_bounds q) as [Fle Flt].
  assert (z < Spec.Qcfloor q + 1).
  { apply Z2Qc_inj_lt. eapply Qcle_lt_trans; eauto. }
  assert (Spec.Qcfloor q < z + 1).
  { apply Z2Qc_inj_lt. eapply Qcle_lt_trans; eauto. }
  lia.
Qed.

Lemma Qcfloor_sub_Z (q : Qc) (k : Z) :
  Spec.Qcfloor (q - Qc_of_Z k)%Qc = Spec.Qcfloor q - k.
Proof.
  destruct (Qcfloor_bounds q) as [Fle Flt].
  apply Qcfloor_unique.
  - rewrite Z2Qc_inj_sub. unfold Qcminus. apply Qcplus_le_mono_r. exact Fle.
  - replace (Spec.Qcfloor q - k + 1) with (Spec.Qcfloor q + 1 - k) by lia.
    rewrite Z2Qc_inj_sub. unfold Qcminus. apply Qcplus_lt_mono_r. exact Flt.
Qed.

Lemma Qcfloor_nonneg (q : Qc) : (0 <= q)%Qc -> 0 <= Spec.Qcfloor q.
Proof.
  intros Hq. destruct (Qcfloor_bounds q) as [_ Flt].
  assert (0 < Spec.Qcfloor q + 1); [|lia].
  apply Z2Qc_inj_lt. rewrite Z2Qc_inj_0. eapply Qcle_lt_trans; eauto.
Qed.

Lemma Qcfloor_lt_Z (q : Qc) (k : Z) : (q < Qc_of_Z k)%Qc -> Spec.Qcfloor q < k.
Proof.
  intros Hq. destruct (Qcfloor_bounds q) as [Fle _].
  apply Z2Qc_inj_lt. eapply Qcle_lt_trans; eauto.
Qed.

Lemma Qc_of_Z_pos (k : Z) : 0 < k -> (0 < Qc_of_Z k)%Qc.
Proof.
  intros Hk. rewrite <- Z2Qc_inj_0. apply (proj1 (Z2Qc_inj_lt 0 k)). exact Hk.
Qed.

(** The fractional part, scaled by a positive integer, stays below it. *)
Lemma frac_scaled (q : Qc) (k : Z) :
  0 < k ->
  let r := ((q - Qc_of_Z (Spec.Qcfloor q)) * Qc_of_Z k)%Qc in
  (0 <= r)%Qc /\ (r < Qc_of_Z k)%Qc.
Proof.
  intros Hk r. subst r.
  destruct (Qcfloor_bounds q) as [Fle Flt].
  assert (Hk' : (0 < Qc_of_Z k)%Qc) by (apply Qc_of_Z_pos; exact Hk).
  rewrite Z2Qc_inj_add, Z2Qc_inj_1 in Flt.
  split.
  - apply Qcmult_nonneg_nonneg; [|apply Qclt_le_weak; exact Hk'].
    apply Qcle_minus_iff in Fle. exact Fle.
  - rewrite <- (Qcmult_1_l (Qc_of_Z k)) at 2.
    apply Qcmult_lt_mono_pos_r; [exact Hk'|].
    apply (Qcplus_lt_mono_r _ _ (Qc_of_Z (Spec.Qcfloor q))).
    replace (q - Qc_of_Z (Spec.Qcfloor q) + Qc_of_Z (Spec.Qcfloor q))%Qc with q by ring.
    rewrite Qcplus_comm. exact Flt.
Qed.

Lemma pow10_pos (p : nat) : 0 < 10 ^ Z.of_nat p.
Proof. apply Z.pow_pos_nonneg; lia. Qed.

Lemma Qc_half_bounds : (0 <= Q2Qc (1 # 2))%Qc /\ (Q2Qc (1 # 2) < 1)%Qc.
Proof. split; vm_compute; congruence. Qed.

(** Steps 2 to 5 before the carry: the three fields are in range (the
    seconds may have been rounded up to a full minute) and add up to the
    angle rounded to the nearest [10^-p] second. *)
Lemma split_angle_sum (x : Qc) (p : nat) :
  (0 <= x)%Qc ->
  let '(d, m, s) := Spec.split_angle x p in
  0 <= d /\ 0 <= m < 60 /\ 0 <= s <= 60 * 10 ^ Z.of_nat p /\
  (d * 60 + m) * 60 * 10 ^ Z.of_nat p + s
  = Spec.Qcround (x * Qc_of_Z (3600 * 10 ^ Z.of_nat p))%Qc.
Proof.
  intros Hx. unfold Spec.split_angle.
  assert (HP : 0 < 10 ^ Z.of_nat p) by apply pow10_pos.
  set (P := 10 ^ Z.of_nat p) in *. clearbody P.
  set (d := Spec.Qcfloor x).
  set (mf := ((x - Qc_of_Z d) * Qc_of_Z 60)%Qc).
  set (m := Spec.Qcfloor mf).
  set (secs := ((mf - Qc_of_Z m) * Qc_of_Z 60)%Qc).
  assert (HP' : (0 < Qc_of_Z P)%Qc) by (apply Qc_of_Z_pos; exact HP).
  destruct (frac_scaled x 60 ltac:(lia)) as [Hmf0 Hmf60]. fold d mf in Hmf0, Hmf60.
  destruct (frac_scaled mf 60 ltac:(lia)) as [Hs0 Hs60]. fold m secs in Hs0, Hs60.
  destruct Qc_half_bounds as [Hh0 Hh1].
  assert (Hsum : ((secs * Qc_of_Z P + Q2Qc (1 # 2))
                  = (x * Qc_of_Z (3600 * P) + Q2Qc (1 # 2))
                    - Qc_of_Z ((d * 60 + m) * 60 * P))%Qc).
  { unfold secs, mf. rewrite !Z2Qc_inj_mul, !Z2Qc_inj_add, !Z2Qc_inj_mul.
    replace (Qc_of_Z 3600) with (Qc_of_Z 60 * Qc_of_Z 60)%Qc
      by (rewrite <- Z2Qc_inj_mul; reflexivity).
    ring. }
  split; [apply Qcfloor_nonneg; exact Hx|].
  split; [split; [apply Qcfloor_nonneg; exact Hmf0 | apply Qcfloor_lt_Z; exact Hmf60]|].
  split.
  - split.
    + apply Qcfloor_nonneg. apply Qcplus_nonneg_nonneg; [|exact Hh0].
      apply Qcmult_nonneg_nonneg; [exact Hs0 | apply Qclt_le_weak; exact HP'].
    + assert (Spec.Qcround (secs * Qc_of_Z P)%Qc < 60 * P + 1); [|lia].
      apply Qcfloor_lt_Z. rewrite Z2Qc_inj_add, Z2Qc_inj_mul, Z2Qc_inj_1.
      apply Qclt_trans with (Qc_of_Z 60 * Qc_of_Z P + Q2Qc (1 # 2))%Qc.
      * apply Qcplus_lt_mono_r. apply Qcmult_lt_mono_pos_r; assumption.
      * apply Qcplus_lt_mono_l. exact Hh1.
  - unfold Spec.Qcround. rewrite Hsum, Qcfloor_sub_Z. lia.
Qed.

(** The carries keep the sum and bring the seconds and minutes in range. *)
Lemma carry_sum (d m s : Z) (p : nat) :
  0 <= d -> 0 <= m < 60 -> 0 <= s <= 60 * 10 ^ Z.of_nat p ->
  let '(d', m', s') := Spec.carry (d, m, s) p in
  0 <= d' /\ 0 <= m' < 60 /\ 0 <= s' < 60 * 10 ^ Z.of_nat p /\
  (d' * 60 + m') * 60 * 10 ^ Z.of_nat p + s'
  = (d * 60 + m) * 60 * 10 ^ Z.of_nat p + s.
Proof.
  unfold Spec.carry.
  assert (HP : 0 < 10 ^ Z.of_nat p) by apply pow10_pos.
  set (P := 10 ^ Z.of_nat p) in *. clearbody P.
  intros Hd Hm Hs.
  destruct (s =? 60 * P) eqn:Es.
  - apply Z.eqb_eq in Es.
    destruct (m + 1 =? 60) eqn:Em.
    + apply Z.eqb_eq in Em. nia.
    + apply Z.eqb_neq in Em. nia.
  - apply Z.eqb_neq in Es.
    destruct (m =? 60) eqn:Em.
    + apply Z.eqb_eq in Em. lia.
    + nia.
Qed.

Lemma Qcabs_nonneg (q : Qc) : (0 <= Spec.Qcabs q)%Qc.
Proof.
  unfold Spec.Qcabs, Qc_sgn.
  destruct (q ?= 0)%Qc eqn:E.
  - apply Qceq_alt in E. subst q. apply Qcle_refl.
  - apply Qclt_alt in E. apply Qclt_le_weak in E.
    apply Qcopp_le_compat in E.
    replace (- 0)%Qc with 0%Qc in E by ring. exact E.
  - apply Qcgt_alt in E. apply Qclt_le_weak. exact E.
Qed.

(** ** The axis argument of [decToDMS] *)

Lemma toupper_is_L (c : ascii) :
  toupper c = "L"%char <-> c = "l"%char \/ c = "L"%char.
Proof.
  destruct c as [[] [] [] [] [] [] [] []]; vm_compute;
    (split; [intros H; try discriminate H; auto
            | intros [H | H]; try discriminate H; reflexivity]).
Qed.

Lemma capitalize_is_Lat (t : string) : capitalize t = "Lat"%string <-> is_lat t.
Proof.
  unfold is_lat.
  destruct t as [|c r]; cbn [capitalize].
  - split; [discriminate | intros [H | H]; discriminate H].
  - split.
    + intros H. injection H as Hc Hr. subst r.
      apply toupper_is_L in Hc. destruct Hc as [-> | ->]; auto.
    + intros [H | H]; injection H as -> ->; reflexivity.
Qed.

Lemma capitalize_is_Long (t : string) : capitalize t = "Long"%string <-> is_long t.
Proof.
  unfold is_long.
  destruct t as [|c r]; cbn [capitalize].
  - split; [discriminate | intros [H | H]; discriminate H].
  - split.
    + intros H. injection H as Hc Hr. subst r.
      apply toupper_is_L in Hc. destruct Hc as [-> | ->]; auto.
    + intros [H | H]; injection H as -> ->; reflexivity.
Qed.

Lemma IsInt32_of_Z (z : Z) : int32 z -> IsInt32 (VNumber (of_Z z)) = true.
Proof.
  unfold int32. intros Hz. cbn.
  apply andb_true_intro. split; [|apply Z.ltb_lt; lia].
  apply Z.leb_le. lia.
Qed.

Lemma NODE_ARG_INT_OPT_precision (a b : value) (p : option Z) (name : string) (w : world) :
  (forall z, p = Some z -> int32 z) ->
  NODE_ARG_INT_OPT (a :: b :: precision_arg p) 2 name 2 w = (Ok (default 2 p), w).
Proof.
  intros Hp. unfold NODE_ARG_INT_OPT. destruct p as [z|]; cbn [precision_arg].
  - change (2 <? length [a; b; VNumber (of_Z z)])%nat with true. cbv iota.
    change (arg [a; b; VNumber (of_Z z)] 2) with (VNumber (of_Z z)).
    rewrite IsInt32_of_Z by (apply Hp; reflexivity). reflexivity.
  - reflexivity.
Qed.

Section AnyLibrary.
Context {lib : GDALLib}.

(** What [decToDMS] does once its three arguments have the right types. *)
Lemma decToDMS_eval (n : number) (s : string) (p : option Z) (w : world) :
  (forall z, p = Some z -> int32 z) ->
  decToDMS (VNumber n :: VString s :: precision_arg p) w
  = (if negb (String.eqb (capitalize (c_str s)) "Lat")
        && negb (String.eqb (capitalize (c_str s)) "Long")
     then Throw Error "Axis must be 'lat' or 'long'"
     else Ok (SafeString_New
                (GDALDecToDMS n (c_str (capitalize (c_str s))) (default 2 p))),
     w).
Proof.
  intros Hp. unfold decToDMS, bind.
  change (NODE_ARG_DOUBLE (VNumber n :: VString s :: precision_arg p) 0 "angle" w)
    with (@Ok number n, w).
  cbv iota.
  change (NODE_ARG_STR (VNumber n :: VString s :: precision_arg p) 1 "axis" w)
    with (@Ok string (c_str s), w).
  cbv iota.
  rewrite NODE_ARG_INT_OPT_precision by exact Hp.
  destruct (negb (String.eqb (capitalize (c_str s)) "Lat")
            && negb (String.eqb (capitalize (c_str s)) "Long")); reflexivity.
Qed.

Lemma decToDMS_lat (n : number) (s : string) (p : option Z) (w : world) :
  (forall z, p = Some z -> int32 z) ->
  is_lat (c_str s) ->
  decToDMS (VNumber n :: VString s :: precision_arg p) w
  = (Ok (SafeString_New (GDALDecToDMS n "Lat" (default 2 p))), w).
Proof.
  intros Hp Hs. rewrite decToDMS_eval by exact Hp.
  apply capitalize_is_Lat in Hs. rewrite Hs. reflexivity.
Qed.

Lemma decToDMS_long (n : number) (s : string) (p : option Z) (w : world) :
  (forall z, p = Some z -> int32 z) ->
  is_long (c_str s) ->
  decToDMS (VNumber n :: VString s :: precision_arg p) w
  = (Ok (SafeString_New (GDALDecToDMS n "Long" (default 2 p))), w).
Proof.
  intros Hp Hs. rewrite decToDMS_eval by exact Hp.
  apply capitalize_is_Long in Hs. rewrite Hs. reflexivity.
Qed.

Lemma decToDMS_other (n : number) (s : string) (p : option Z) (w : world) :
  (forall z, p = Some z -> int32 z) ->
  ~ is_lat (c_str s) -> ~ is_long (c_str s) ->
  decToDMS (VNumber n :: VString s :: precision_arg p) w
  = (Throw Error "Axis must be 'lat' or 'long'", w).
Proof.
  intros Hp Hlat Hlong. rewrite decToDMS_eval by exact Hp.
  destruct (String.eqb_spec (capitalize (c_str s)) "Lat") as [E | _].
  { apply capitalize_is_Lat in E. contradiction. }
  destruct (String.eqb_spec (capitalize (c_str s)) "Long") as [E | _].
  { apply capitalize_is_Long in E. contradiction. }
  reflexivity.
Qed.

End AnyLibrary.

(** ** Reading the coefficient array *)

Lemma array_elems_lookup (h : gmap loc object) (l : loc) (es : list value) :
  h !! l = Some (OArray es) -> array_elems h l = es.
Proof. intros H. unfold array_elems. rewrite H. reflexivity. Qed.

Section AnyLibraryGeo.
Context {lib : GDALLib}.

Lemma read_coefficients_step (a : loc) (i k : nat) (d : gt) (w : world) :
  read_coefficients a i (S k) d w
  = let val := array_get (array_elems (heap w) a) i in
    if negb (IsNumber val)
    then (Throw Error "geotransform array must only contain numbers", w)
    else read_coefficients a (S i) k (gt_set d i (NumberValue val)) w.
Proof.
  cbn [read_coefficients]. unfold bind, Array_Get. cbv zeta.
  destruct (negb (IsNumber (array_get (array_elems (heap w) a) i))); reflexivity.
Qed.

(** Six Numbers are read into the buffer, whatever the buffer held. *)
Lemma read_coefficients_numbers (a : loc) (g d : gt) (w : world) :
  heap w !! a = Some (OArray (gt_values g)) ->
  read_coefficients a 0 6 d w = (Ok g, w).
Proof.
  intros Ha.
  do 6 (rewrite read_coefficients_step, (array_elems_lookup _ _ _ Ha);
        cbn [gt_values array_get nth IsNumber negb NumberValue]).
  destruct g; reflexivity.
Qed.

(** An element that is not a Number stops the loop with an error. *)
Lemma read_coefficients_not_number (a : loc) (k i j : nat) (d : gt) (w : world) :
  (i <= j < i + k)%nat ->
  IsNumber (array_get (array_elems (heap w) a) j) = false ->
  read_coefficients a i k d w
  = (Throw Error "geotransform array must only contain numbers", w).
Proof.
  revert i d. induction k as [|k IH]; intros i d Hj Hn; [lia|].
  cbn [read_coefficients]. unfold bind, Array_Get.
  destruct (IsNumber (array_get (array_elems (heap w) a) i)) eqn:Ei; cbn [negb].
  - apply IH; [|exact Hn].
    destruct (Nat.eq_dec i j) as [-> | Hne]; [congruence | lia].
  - reflexivity.
Qed.

Lemma NODE_ARG_ARRAY_array (info : list value) (num : nat) (name : string)
    (l : loc) (es : list value) (w : world) :
  (num < length info)%nat ->
  arg info num = VRef l ->
  heap w !! l = Some (OArray es) ->
  NODE_ARG_ARRAY info num name w = (Ok l, w).
Proof.
  intros Hlen Harg Hl. unfold NODE_ARG_ARRAY.
  replace (length info <? num + 1)%nat with false
    by (symmetry; apply Nat.ltb_ge; lia).
  unfold bind, get_heap. rewrite Harg. unfold IsArray. rewrite Hl. reflexivity.
Qed.

(** ** Writing the output array *)

(** Six writes at indices 0 to 5 replace the first six elements, extending
    a shorter array, and keep what lies beyond. *)
Lemma array_set_six (old : list value) (v0 v1 v2 v3 v4 v5 : value) :
  array_set (array_set (array_set (array_set (array_set (array_set old
    0 v0) 1 v1) 2 v2) 3 v3) 4 v4) 5 v5
  = [v0; v1; v2; v3; v4; v5] ++ drop 6 old.
Proof.
  destruct old as [|a0 [|a1 [|a2 [|a3 [|a4 [|a5 r]]]]]]; reflexivity.
Qed.

Lemma Array_Set_inserted (b : loc) (i : nat) (v : value)
    (h : gmap loc object) (c : gmap string string) (es : list value) :
  Array_Set b i v (World (<[b := OArray es]> h) c)
  = (Ok tt, World (<[b := OArray (array_set es i v)]> h) c).
Proof.
  unfold Array_Set, set_heap, array_elems. cbn [heap config].
  rewrite lookup_insert_eq, insert_insert_eq. reflexivity.
Qed.

(** What [invGeoTransform] does once both arguments are arrays and the
    first holds six Numbers: the six slots of the output array are written
    from the buffer the library routine leaves, and its status is returned,
    whatever that status is. *)
Lemma invGeoTransform_eval (dIn dOut g : gt) (a b : loc) (old rest : list value)
    (w : world) :
  heap w !! a = Some (OArray (gt_values g)) ->
  heap w !! b = Some (OArray old) ->
  invGeoTransform dIn dOut (VRef a :: VRef b :: rest) w
  = (Ok (VNumber (of_Z (fst (GDALInvGeoTransform g dOut)))),
     set_heap (<[b := OArray (gt_values (snd (GDALInvGeoTransform g dOut))
                                ++ drop 6 old)]> (heap w)) w).
Proof.
  intros Ha Hb. unfold invGeoTransform.
  unfold bind at 1.
  rewrite (NODE_ARG_ARRAY_array _ 0 _ a (gt_values g)) by (cbn; first [lia | done]).
  unfold bind at 1.
  rewrite (NODE_ARG_ARRAY_array _ 1 _ b old) by (cbn; first [lia | done]).
  unfold bind at 1. unfold Array_Length at 1.
  rewrite (array_elems_lookup _ _ _ Ha).
  change (negb (length (gt_values g) =? 6)%nat) with false. cbv iota.
  unfold bind at 1. rewrite (read_coefficients_numbers a g) by exact Ha.
  destruct (GDALInvGeoTransform g dOut) as [stat out]. cbn [fst snd].
  destruct w as [h c]. cbn [heap] in *.
  rewrite <- (insert_id h b (OArray old)) at 1 by exact Hb.
  unfold bind. rewrite !Array_Set_inserted.
  rewrite array_set_six. unfold ret, set_heap. cbn [heap config]. reflexivity.
Qed.

(** ** The point argument and the result object *)

Lemma point_argument_given (g : value) (rest : list value) (x y : number) (w : world) :
  point_given w x y rest ->
  point_argument (g :: rest) w = (Ok (x, y), w).
Proof.
  intros [|o ps Ho Hx Hy]; unfold point_argument, bind, get_heap.
  - reflexivity.
  - cbn [length Nat.eqb arg nth andb]. unfold IsObject. rewrite Ho.
    unfold Object_Get, object_get. rewrite Ho, Hx, Hy. reflexivity.
Qed.

(** What [applyGeoTransform] does once the first argument holds six
    Numbers and the point is given: a new object holds what the library
    routine stored through its two output pointers. *)
Lemma applyGeoTransform_eval (dIn g : gt) (a : loc) (rest : list value)
    (x y : number) (w : world) :
  heap w !! a = Some (OArray (gt_values g)) ->
  point_given w x y rest ->
  applyGeoTransform dIn (VRef a :: rest) w
  = (Ok (VRef (alloc (heap w))),
     set_heap (<[alloc (heap w) :=
                   xy_object (fst (GDALApplyGeoTransform g x y))
                             (snd (GDALApplyGeoTransform g x y))]> (heap w)) w).
Proof.
  intros Ha Hp. unfold applyGeoTransform.
  unfold bind at 1.
  rewrite (NODE_ARG_ARRAY_array _ 0 _ a (gt_values g)) by (cbn; first [lia | done]).
  unfold bind at 1. unfold Array_Length at 1.
  rewrite (array_elems_lookup _ _ _ Ha).
  change (negb (length (gt_values g) =? 6)%nat) with false. cbv iota.
  unfold bind at 1. rewrite (read_coefficients_numbers a g) by exact Ha.
  unfold bind at 1. rewrite (point_argument_given _ _ x y) by exact Hp.
  cbn [fst snd].
  destruct (GDALApplyGeoTransform g x y) as [xout yout]. cbn [fst snd].
  unfold bind, New_Object, Object_Set, ret, set_heap, xy_object. cbn [heap config].
  rewrite !lookup_insert_eq, !insert_insert_eq. reflexivity.
Qed.

End AnyLibraryGeo.

(** ** Rejected coefficient arrays *)

Lemma forallb_false_nth (es : list value) :
  forallb IsNumber es = false ->
  exists j, (j < length es)%nat /\ IsNumber (array_get es j) = false.
Proof.
  induction es as [|e es IH]; cbn [forallb]; [discriminate|].
  destruct (IsNumber e) eqn:Ee; cbn [andb].
  - intros H. destruct (IH H) as (j & Hj & Hn).
    exists (S j). split; [cbn; lia | exact Hn].
  - intros _. exists 0%nat. split; [cbn; lia | exact Ee].
Qed.

Lemma acceptable_gt_values (es : list value) :
  acceptable es = true -> exists g, es = gt_values g.
Proof.
  unfold acceptable. intros H. apply andb_prop in H. destruct H as [Hl Hn].
  destruct es as [|v0 [|v1 [|v2 [|v3 [|v4 [|v5 [|]]]]]]]; try discriminate Hl.
  destruct v0 as [| | |n0| |]; try discriminate Hn.
  destruct v1 as [| | |n1| |]; try discriminate Hn.
  destruct v2 as [| | |n2| |]; try discriminate Hn.
  destruct v3 as [| | |n3| |]; try discriminate Hn.
  destruct v4 as [| | |n4| |]; try discriminate Hn.
  destruct v5 as [| | |n5| |]; try discriminate Hn.
  exists (GT n0 n1 n2 n3 n4 n5). reflexivity.
Qed.

Lemma NODE_ARG_ARRAY_cases (info : list value) (num : nat) (name : string) (w : world) :
  (exists l es, arg info num = VRef l /\ heap w !! l = Some (OArray es) /\
                NODE_ARG_ARRAY info num name w = (Ok l, w))
  \/ (exists k msg, NODE_ARG_ARRAY info num name w = (Throw k msg, w)).
Proof.
  unfold NODE_ARG_ARRAY.
  destruct (length info <? num + 1)%nat; [right; eexists _, _; reflexivity|].
  unfold bind, get_heap, IsArray.
  destruct (arg info num) as [| | | | |l]; try (right; eexists _, _; reflexivity).
  destruct (heap w !! l) as [[es|ps]|] eqn:El; try (right; eexists _, _; reflexivity).
  left. exists l, es. auto.
Qed.

Section AnyLibraryRejects.
Context {lib : GDALLib}.

(** Lines 171-184 on an array that is not acceptable. *)
Lemma coefficients_rejected (a : loc) (es : list value) (d : gt) (B : Type)
    (k : gt -> M B) (w : world) :
  heap w !! a = Some (OArray es) ->
  acceptable es = false ->
  (do n_num <- Array_Length a;
   if negb (n_num =? 6)%nat
   then throw Error "Input geotransform array length must equal 6"
   else do dfgtIn <- read_coefficients a 0 n_num d; k dfgtIn) w
  = (Throw Error (if (length es =? 6)%nat
                  then "geotransform array must only contain numbers"
                  else "Input geotransform array length must equal 6"), w).
Proof.
  intros Ha Hbad. unfold bind at 1. unfold Array_Length.
  rewrite (array_elems_lookup _ _ _ Ha).
  unfold acceptable in Hbad.
  destruct (length es =? 6)%nat eqn:El; cbn [negb andb] in *; [|reflexivity].
  apply Nat.eqb_eq in El.
  destruct (forallb_false_nth es Hbad) as (j & Hj & Hn).
  unfold bind. rewrite El. rewrite (read_coefficients_not_number a 6 0 j).
  - reflexivity.
  - lia.
  - rewrite (array_elems_lookup _ _ _ Ha). exact Hn.
Qed.

Lemma applyGeoTransform_rejects (dIn : gt) (a : loc) (es rest : list value) (w : world) :
  heap w !! a = Some (OArray es) ->
  acceptable es = false ->
  applyGeoTransform dIn (VRef a :: rest) w
  = (Throw Error (if (length es =? 6)%nat
                  then "geotransform array must only contain numbers"
                  else "Input geotransform array length must equal 6"), w).
Proof.
  intros Ha Hbad. unfold applyGeoTransform. unfold bind at 1.
  rewrite (NODE_ARG_ARRAY_array _ 0 _ a es) by (cbn; first [lia | done]).
  apply coefficients_rejected; assumption.
Qed.

Lemma invGeoTransform_rejects (dIn dOut : gt) (a : loc) (es rest : list value) (w : world) :
  heap w !! a = Some (OArray es) ->
  acceptable es = false ->
  invGeoTransform dIn dOut (VRef a :: rest) w
  = match NODE_ARG_ARRAY (VRef a :: rest) 1 "gtOut" w with
    | (Throw k msg, _) => (Throw k msg, w)
    | (Ok _, _) =>
        (Throw Error (if (length es =? 6)%nat
                      then "geotransform array must only contain numbers"
                      else "Input geotransform array length must equal 6"), w)
    end.
Proof.
  intros Ha Hbad. unfold invGeoTransform. unfold bind at 1.
  rewrite (NODE_ARG_ARRAY_array _ 0 _ a es) by (cbn; first [lia | done]).
  unfold bind at 1.
  destruct (NODE_ARG_ARRAY_cases (VRef a :: rest) 1 "gtOut" w)
    as [(l & es' & _ & _ & E) | (k & msg & E)]; rewrite E; [|reflexivity].
  apply coefficients_rejected; assumption.
Qed.

End AnyLibraryRejects.

(** * The claims *)

(** C9: once [invGeoTransform] has two array arguments and six Numbers in
    the first, it writes indices 0 to 5 of the output array from the
    buffer the library routine leaves and returns the routine's status,
    whatever that status is; the output array's length and earlier
    contents play no part in what is written (a shorter array is extended
    to six elements, elements from index 6 on stay). *)
Theorem invGeoTransform_overwrites_output {lib : GDALLib} (dIn dOut g : gt)
    (a b : loc) (old rest : list value) (w : world) :
  heap w !! a = Some (OArray (gt_values g)) ->
  heap w !! b = Some (OArray old) ->
  exists new,
    invGeoTransform dIn dOut (VRef a :: VRef b :: rest) w
    = (Ok (VNumber (of_Z (fst (GDALInvGeoTransform g dOut)))),
       set_heap (<[b := OArray new]> (heap w)) w)
    /\ (forall i, (i < 6)%nat ->
          array_get new i = VNumber (gt_get (snd (GDALInvGeoTransform g dOut)) i))
    /\ drop 6 new = drop 6 old
    /\ length new = Nat.max 6 (length old).
Proof.
  intros Ha Hb.
  exists (gt_values (snd (GDALInvGeoTransform g dOut)) ++ drop 6 old).
  split; [apply invGeoTransform_eval; assumption|].
  split; [|split].
  - intros i Hi.
    destruct i as [|[|[|[|[|[|i]]]]]]; try reflexivity; lia.
  - reflexivity.
  - rewrite length_app, length_drop. cbn [gt_values length]. lia.
Qed.

(** The singular all-zero transform with the specification's routine: the
    status is what the routine returns and the one element the output
    array held is overwritten all the same. *)
Lemma invGeoTransform_overwrites_output_witness :
  heap sample_world !! 1%positive
  = Some (OArray (gt_values (GT (of_Z 0) (of_Z 0) (of_Z 0) (of_Z 0) (of_Z 0) (of_Z 0))))
  /\ heap sample_world !! 2%positive = Some (OArray [VString "kept?"])
  /\ exists new,
       invGeoTransform (lib := spec_lib) nan_gt nan_gt [VRef 1%positive; VRef 2%positive] sample_world
       = (Ok (VNumber (of_Z (fst (GDALInvGeoTransform
                (GT (of_Z 0) (of_Z 0) (of_Z 0) (of_Z 0) (of_Z 0) (of_Z 0)) nan_gt)))),
          set_heap (<[2%positive := OArray new]> (heap sample_world)) sample_world)
       /\ (forall i, (i < 6)%nat ->
             array_get new i
             = VNumber (gt_get (snd (GDALInvGeoTransform
                 (GT (of_Z 0) (of_Z 0) (of_Z 0) (of_Z 0) (of_Z 0) (of_Z 0)) nan_gt)) i))
       /\ drop 6 new = drop 6 [VString "kept?"]
       /\ length new = Nat.max 6 (length [VString "kept?"]).
Proof.
  split; [reflexivity|]. split; [reflexivity|].
  apply (invGeoTransform_overwrites_output (lib := spec_lib) nan_gt nan_gt
           (GT (of_Z 0) (of_Z 0) (of_Z 0) (of_Z 0) (of_Z 0) (of_Z 0))
           1%positive 2%positive [VString "kept?"] [] sample_world);
    reflexivity.
Defined.

(** C8 (as the code has it): for both [invGeoTransform] and
    [applyGeoTransform], a coefficient array whose length is not 6, or
    that holds an element that is not a Number, is rejected with a thrown
    Error that does not depend on the library routine, which is therefore
    not reached, and the world stays as it was; six Numbers, finite or not
    (NaN and the infinities are Numbers), pass. *)
Theorem coefficient_array_validated (a b : loc) (es old rest : list value)
    (x y : number) (w : world) :
  heap w !! a = Some (OArray es) ->
  heap w !! b = Some (OArray old) ->
  point_given w x y rest ->
  if acceptable es
  then forall (lib : GDALLib) (dIn dOut : gt),
         is_throw (fst (invGeoTransform dIn dOut [VRef a; VRef b] w)) = false
         /\ is_throw (fst (applyGeoTransform dIn (VRef a :: rest) w)) = false
  else exists msg, forall (lib : GDALLib) (dIn dOut : gt),
         invGeoTransform dIn dOut [VRef a; VRef b] w = (Throw Error msg, w)
         /\ applyGeoTransform dIn (VRef a :: rest) w = (Throw Error msg, w).
Proof.
  intros Ha Hb Hp. destruct (acceptable es) eqn:Eacc.
  - intros lib dIn dOut.
    destruct (acceptable_gt_values es Eacc) as [g ->].
    rewrite (invGeoTransform_eval dIn dOut g a b old []) by assumption.
    rewrite (applyGeoTransform_eval dIn g a rest x y) by assumption.
    split; reflexivity.
  - exists (if (length es =? 6)%nat
            then "geotransform array must only contain numbers"
            else "Input geotransform array length must equal 6")%string.
    intros lib dIn dOut. split.
    + rewrite (invGeoTransform_rejects dIn dOut a es) by assumption.
      rewrite (NODE_ARG_ARRAY_array _ 1 _ b old) by (cbn; first [lia | done]).
      reflexivity.
    + apply applyGeoTransform_rejects; assumption.
Qed.

(** A five-element array is rejected by both methods. *)
Lemma coefficient_array_validated_witness :
  heap sample_world !! 6%positive = Some (OArray [num 0; num 1; num 0; num 0; num 0])
  /\ heap sample_world !! 4%positive = Some (OArray [])
  /\ point_given sample_world (of_Z 1) (of_Z 2) [VNumber (of_Z 1); VNumber (of_Z 2)]
  /\ exists msg, forall (lib : GDALLib) (dIn dOut : gt),
       invGeoTransform dIn dOut [VRef 6%positive; VRef 4%positive] sample_world
       = (Throw Error msg, sample_world)
       /\ applyGeoTransform dIn [VRef 6%positive; VNumber (of_Z 1); VNumber (of_Z 2)] sample_world
          = (Throw Error msg, sample_world).
Proof.
  split; [reflexivity|]. split; [reflexivity|]. split; [constructor|].
  apply (coefficient_array_validated 6%positive 4%positive
           [num 0; num 1; num 0; num 0; num 0] []
           [VNumber (of_Z 1); VNumber (of_Z 2)] (of_Z 1) (of_Z 2) sample_world);
    [reflexivity | reflexivity | constructor].
Defined.

(** C8 as stated fails: an array of six Numbers whose first is NaN, which
    is not a finite numeric value, is not rejected; [applyGeoTransform]
    hands it to the library routine and returns an object. *)
Lemma nan_coefficient_not_rejected :
  exists yout,
    applyGeoTransform (lib := spec_lib) nan_gt
      [VRef 5%positive; VNumber (of_Z 0); VNumber (of_Z 0)] sample_world
    = (Ok (VRef (alloc (heap sample_world))),
       set_heap (<[alloc (heap sample_world) := xy_object NaN yout]> (heap sample_world))
         sample_world).
Proof.
  eexists.
  rewrite (applyGeoTransform_eval nan_gt (GT NaN (of_Z 1) (of_Z 0) (of_Z 0) (of_Z 0) (of_Z 1))
             5%positive _ (of_Z 0) (of_Z 0)); [|reflexivity|constructor].
  reflexivity.
Qed.

(** C3 (as the code has it): [decToDMS] lets through exactly the axis
    strings that read, up to their first NUL, "lat" or "Lat", and "long"
    or "Long"; the two spellings of an axis give the same result, that of
    the library routine on the token "Lat" or "Long"; every other string,
    "LAT" and "latitude" among them, is rejected with the Error
    "Axis must be 'lat' or 'long'".  Only the first letter is
    capitalised before the comparison. *)
Theorem decToDMS_axis {lib : GDALLib} (n : number) (s : string) (p : option Z)
    (w : world) :
  (forall z, p = Some z -> int32 z) ->
  (is_lat (c_str s) ->
     decToDMS (VNumber n :: VString s :: precision_arg p) w
     = (Ok (SafeString_New (GDALDecToDMS n "Lat" (default 2 p))), w))
  /\ (is_long (c_str s) ->
     decToDMS (VNumber n :: VString s :: precision_arg p) w
     = (Ok (SafeString_New (GDALDecToDMS n "Long" (default 2 p))), w))
  /\ (~ is_lat (c_str s) -> ~ is_long (c_str s) ->
     decToDMS (VNumber n :: VString s :: precision_arg p) w
     = (Throw Error "Axis must be 'lat' or 'long'", w)).
Proof.
  intros Hp. split; [|split].
  - apply decToDMS_lat; exact Hp.
  - apply decToDMS_long; exact Hp.
  - apply decToDMS_other; exact Hp.
Qed.

Lemma decToDMS_axis_witness :
  (forall z, @None Z = Some z -> int32 z)
  /\ (is_lat (c_str "lat") ->
        decToDMS (lib := spec_lib) (VNumber (of_Z 1) :: VString "lat" :: precision_arg None) sample_world
        = (Ok (SafeString_New (GDALDecToDMS (of_Z 1) "Lat" (default 2 None))), sample_world))
  /\ (is_long (c_str "lat") ->
        decToDMS (lib := spec_lib) (VNumber (of_Z 1) :: VString "lat" :: precision_arg None) sample_world
        = (Ok (SafeString_New (GDALDecToDMS (of_Z 1) "Long" (default 2 None))), sample_world))
  /\ (~ is_lat (c_str "lat") -> ~ is_long (c_str "lat") ->
        decToDMS (lib := spec_lib) (VNumber (of_Z 1) :: VString "lat" :: precision_arg None) sample_world
        = (Throw Error "Axis must be 'lat' or 'long'", sample_world)).
Proof.
  split; [intros z Hz; discriminate Hz|].
  apply (decToDMS_axis (lib := spec_lib) (of_Z 1) "lat" None sample_world).
  intros z Hz; discriminate Hz.
Defined.

(** C3 as stated fails: "LAT" is not let through, since only its first
    letter is capitalised and "LAT" is not "Lat"; "lat" is. *)
Lemma decToDMS_LAT_rejected :
  decToDMS (lib := spec_lib) [VNumber (of_Z 1); VString "LAT"] sample_world
  = (Throw Error "Axis must be 'lat' or 'long'", sample_world)
  /\ is_throw (fst (decToDMS (lib := spec_lib)
                      [VNumber (of_Z 1); VString "lat"] sample_world)) = false.
Proof. split; reflexivity. Qed.

(** C4 (as the code has it): for a non-finite angle and an axis that is let
    through, [decToDMS] throws nothing: it returns what the library routine
    gives for that angle, as a String, or null for a null pointer. *)
Theorem decToDMS_non_finite {lib : GDALLib} (n : number) (s : string)
    (p : option Z) (w : world) :
  isfinite n = false ->
  (forall z, p = Some z -> int32 z) ->
  is_lat (c_str s) \/ is_long (c_str s) ->
  exists token,
    decToDMS (VNumber n :: VString s :: precision_arg p) w
    = (Ok (SafeString_New (GDALDecToDMS n token (default 2 p))), w)
    /\ (token = "Lat" \/ token = "Long")%string.
Proof.
  intros _ Hp [Hs | Hs].
  - exists "Lat"%string. split; [apply decToDMS_lat; assumption | auto].
  - exists "Long"%string. split; [apply decToDMS_long; assumption | auto].
Qed.

Lemma decToDMS_non_finite_witness :
  isfinite NaN = false
  /\ (forall z, Some 2 = Some z -> int32 z)
  /\ (is_lat (c_str "lat") \/ is_long (c_str "lat"))
  /\ exists token,
       decToDMS (lib := spec_lib) (VNumber NaN :: VString "lat" :: precision_arg (Some 2)) sample_world
       = (Ok (SafeString_New (GDALDecToDMS NaN token (default 2 (Some 2)))), sample_world)
       /\ (token = "Lat" \/ token = "Long")%string.
Proof.
  assert (Hp : forall z, Some 2 = Some z -> int32 z).
  { intros z Hz. injection Hz as <-. unfold int32. lia. }
  assert (Hs : is_lat (c_str "lat") \/ is_long (c_str "lat")).
  { left. left. reflexivity. }
  split; [reflexivity|]. split; [exact Hp|]. split; [exact Hs|].
  exact (decToDMS_non_finite (lib := spec_lib) NaN "lat" (Some 2) sample_world
           eq_refl Hp Hs).
Defined.

(** C4 as stated fails: with the angle NaN and the axis "lat" nothing is
    thrown. *)
Lemma decToDMS_nan_not_rejected :
  is_throw (fst (decToDMS (lib := spec_lib)
                   [VNumber NaN; VString "lat"] sample_world)) = false.
Proof. reflexivity. Qed.

(** ** Finite coefficients with the specification's routines *)

Lemma is_zero_Fin (q : Qc) : is_zero (Fin q) = true <-> q = 0%Qc.
Proof.
  unfold is_zero. destruct (Qc_eq_dec q 0%Qc) as [E | E]; split; auto; discriminate.
Qed.

Lemma spec_det_finite (c0 c1 c2 c3 c4 c5 : Qc) :
  Spec.det (fin_gt c0 c1 c2 c3 c4 c5) = Fin (c1 * c5 - c2 * c4)%Qc.
Proof. reflexivity. Qed.

Lemma spec_apply_finite (c0 c1 c2 c3 c4 c5 x y : Qc) :
  Spec.GDALApplyGeoTransform (fin_gt c0 c1 c2 c3 c4 c5) (Fin x) (Fin y)
  = (Fin (c0 + x * c1 + y * c2)%Qc, Fin (c3 + x * c4 + y * c5)%Qc).
Proof. reflexivity. Qed.

Lemma spec_inv_finite (c0 c1 c2 c3 c4 c5 : Qc) (dOut : gt) :
  (c1 * c5 - c2 * c4)%Qc <> 0%Qc ->
  let invDet := (1 / (c1 * c5 - c2 * c4))%Qc in
  let c1' := (c5 * invDet)%Qc in
  let c2' := (- c2 * invDet)%Qc in
  let c4' := (- c4 * invDet)%Qc in
  let c5' := (c1 * invDet)%Qc in
  Spec.GDALInvGeoTransform (fin_gt c0 c1 c2 c3 c4 c5) dOut
  = (1, fin_gt (- c0 * c1' - c3 * c2') c1' c2' (- c0 * c4' - c3 * c5') c4' c5').
Proof.
  intros Hdet invDet c1' c2' c4' c5'.
  unfold Spec.GDALInvGeoTransform. rewrite spec_det_finite.
  destruct (is_zero (Fin (c1 * c5 - c2 * c4)%Qc)) eqn:Ez.
  { apply is_zero_Fin in Ez. contradiction. }
  unfold ninv. destruct (Qc_eq_dec (c1 * c5 - c2 * c4)%Qc 0%Qc) as [E | _]; [contradiction|].
  subst c1' c2' c4' c5' invDet. unfold Qcdiv. rewrite Qcmult_1_l. reflexivity.
Qed.

Lemma returned_point_xy_object (h : gmap loc object) (c : gmap string string)
    (l : loc) (x y : number) :
  returned_point (Ok (VRef l), World (<[l := xy_object x y]> h) c) = Some (x, y).
Proof.
  unfold returned_point, object_get, xy_object. cbn [heap].
  rewrite lookup_insert_eq.
  rewrite lookup_insert_ne by discriminate.
  rewrite !lookup_insert_eq. reflexivity.
Qed.

(** C5: with six finite coefficients and a finite point, given as two
    Numbers or as an object with Number properties [x] and [y],
    [applyGeoTransform] returns a new object whose [x] is
    [c0 + x*c1 + y*c2] and whose [y] is [c3 + x*c4 + y*c5]; with the
    coefficients (0,1,0,0,0,1) that is the point itself. *)
Theorem applyGeoTransform_formula (c0 c1 c2 c3 c4 c5 x y : Qc) (dIn : gt)
    (a : loc) (rest : list value) (w : world) :
  heap w !! a = Some (OArray (gt_values (fin_gt c0 c1 c2 c3 c4 c5))) ->
  point_given w (Fin x) (Fin y) rest ->
  applyGeoTransform (lib := spec_lib) dIn (VRef a :: rest) w
  = (Ok (VRef (alloc (heap w))),
     set_heap (<[alloc (heap w) :=
                   xy_object (Fin (c0 + x * c1 + y * c2)%Qc)
                             (Fin (c3 + x * c4 + y * c5)%Qc)]> (heap w)) w)
  /\ (fin_gt c0 c1 c2 c3 c4 c5 = fin_gt 0 1 0 0 0 1 ->
      returned_point (applyGeoTransform (lib := spec_lib) dIn (VRef a :: rest) w)
      = Some (Fin x, Fin y)).
Proof.
  intros Ha Hp.
  rewrite (applyGeoTransform_eval dIn (fin_gt c0 c1 c2 c3 c4 c5) a rest (Fin x) (Fin y))
    by assumption.
  cbn [GDALApplyGeoTransform spec_lib]. rewrite spec_apply_finite. cbn [fst snd].
  split; [reflexivity|].
  intros E. injection E as -> -> -> -> -> ->.
  unfold set_heap. rewrite returned_point_xy_object.
  do 2 f_equal; f_equal; ring.
Qed.

(** The transform of handle 3 at the point (1, 2), given as two Numbers. *)
Lemma applyGeoTransform_formula_witness :
  heap sample_world !! 3%positive
  = Some (OArray (gt_values (fin_gt (Qc_of_Z 10) (Qc_of_Z 2) (Qc_of_Z 0)
                               (Qc_of_Z 20) (Qc_of_Z 0) (Qc_of_Z 4))))
  /\ point_given sample_world (Fin (Qc_of_Z 1)) (Fin (Qc_of_Z 2))
       [VNumber (Fin (Qc_of_Z 1)); VNumber (Fin (Qc_of_Z 2))]
  /\ (applyGeoTransform (lib := spec_lib) nan_gt
        [VRef 3%positive; VNumber (Fin (Qc_of_Z 1)); VNumber (Fin (Qc_of_Z 2))]
        sample_world
      = (Ok (VRef (alloc (heap sample_world))),
         set_heap (<[alloc (heap sample_world) :=
             xy_object (Fin (Qc_of_Z 10 + Qc_of_Z 1 * Qc_of_Z 2 + Qc_of_Z 2 * Qc_of_Z 0)%Qc)
                       (Fin (Qc_of_Z 20 + Qc_of_Z 1 * Qc_of_Z 0 + Qc_of_Z 2 * Qc_of_Z 4)%Qc)]>
           (heap sample_world)) sample_world)
      /\ (fin_gt (Qc_of_Z 10) (Qc_of_Z 2) (Qc_of_Z 0) (Qc_of_Z 20) (Qc_of_Z 0) (Qc_of_Z 4)
          = fin_gt 0 1 0 0 0 1 ->
          returned_point (applyGeoTransform (lib := spec_lib) nan_gt
            [VRef 3%positive; VNumber (Fin (Qc_of_Z 1)); VNumber (Fin (Qc_of_Z 2))]
            sample_world)
          = Some (Fin (Qc_of_Z 1), Fin (Qc_of_Z 2)))).
Proof.
  split; [reflexivity|]. split; [constructor|].
  apply (applyGeoTransform_formula (Qc_of_Z 10) (Qc_of_Z 2) (Qc_of_Z 0)
           (Qc_of_Z 20) (Qc_of_Z 0) (Qc_of_Z 4) (Qc_of_Z 1) (Qc_of_Z 2)
           nan_gt 3%positive _ sample_world); [reflexivity | constructor].
Defined.

(** C6: on six finite coefficients whose determinant [c1*c5 - c2*c4] is not
    zero, [invGeoTransform] returns 1 and writes into the output array
    exactly [c1' = c5*invDet], [c2' = -c2*invDet], [c4' = -c4*invDet],
    [c5' = c1*invDet], [c0' = -c0*c1' - c3*c2'], [c3' = -c0*c4' - c3*c5'],
    with [invDet = 1/(c1*c5 - c2*c4)]. *)
Theorem invGeoTransform_coefficients (c0 c1 c2 c3 c4 c5 : Qc) (dIn dOut : gt)
    (a b : loc) (old rest : list value) (w : world) :
  heap w !! a = Some (OArray (gt_values (fin_gt c0 c1 c2 c3 c4 c5))) ->
  heap w !! b = Some (OArray old) ->
  (c1 * c5 - c2 * c4)%Qc <> 0%Qc ->
  let invDet := (1 / (c1 * c5 - c2 * c4))%Qc in
  let c1' := (c5 * invDet)%Qc in
  let c2' := (- c2 * invDet)%Qc in
  let c4' := (- c4 * invDet)%Qc in
  let c5' := (c1 * invDet)%Qc in
  let c0' := (- c0 * c1' - c3 * c2')%Qc in
  let c3' := (- c0 * c4' - c3 * c5')%Qc in
  invGeoTransform (lib := spec_lib) dIn dOut (VRef a :: VRef b :: rest) w
  = (Ok (VNumber (of_Z 1)),
     set_heap (<[b := OArray (gt_values (fin_gt c0' c1' c2' c3' c4' c5')
                                ++ drop 6 old)]> (heap w)) w).
Proof.
  intros Ha Hb Hdet invDet c1' c2' c4' c5' c0' c3'.
  rewrite (invGeoTransform_eval dIn dOut (fin_gt c0 c1 c2 c3 c4 c5) a b old rest)
    by assumption.
  cbn [GDALInvGeoTransform spec_lib].
  rewrite (spec_inv_finite c0 c1 c2 c3 c4 c5 dOut Hdet). reflexivity.
Qed.

(** The determinant of the transform (10, 2, 0, 20, 0, 4) is 8. *)
Lemma sample_det : (Qc_of_Z 2 * Qc_of_Z 4 - Qc_of_Z 0 * Qc_of_Z 0)%Qc <> 0%Qc.
Proof.
  intros E. apply (f_equal (fun q : Qc => Qnum q)) in E. vm_compute in E. discriminate E.
Qed.

(** The transform (10, 2, 0, 20, 0, 4) of handle 3, inverted into the
    empty array of handle 4. *)
Lemma invGeoTransform_coefficients_witness :
  heap sample_world !! 3%positive
  = Some (OArray (gt_values (fin_gt (Qc_of_Z 10) (Qc_of_Z 2) (Qc_of_Z 0)
                               (Qc_of_Z 20) (Qc_of_Z 0) (Qc_of_Z 4))))
  /\ heap sample_world !! 4%positive = Some (OArray [])
  /\ (Qc_of_Z 2 * Qc_of_Z 4 - Qc_of_Z 0 * Qc_of_Z 0)%Qc <> 0%Qc
  /\ let invDet := (1 / (Qc_of_Z 2 * Qc_of_Z 4 - Qc_of_Z 0 * Qc_of_Z 0))%Qc in
     let c1' := (Qc_of_Z 4 * invDet)%Qc in
     let c2' := (- Qc_of_Z 0 * invDet)%Qc in
     let c4' := (- Qc_of_Z 0 * invDet)%Qc in
     let c5' := (Qc_of_Z 2 * invDet)%Qc in
     let c0' := (- Qc_of_Z 10 * c1' - Qc_of_Z 20 * c2')%Qc in
     let c3' := (- Qc_of_Z 10 * c4' - Qc_of_Z 20 * c5')%Qc in
     invGeoTransform (lib := spec_lib) nan_gt nan_gt [VRef 3%positive; VRef 4%positive]
       sample_world
     = (Ok (VNumber (of_Z 1)),
        set_heap (<[4%positive := OArray (gt_values (fin_gt c0' c1' c2' c3' c4' c5')
                                            ++ drop 6 [])]> (heap sample_world))
          sample_world).
Proof.
  split; [reflexivity|]. split; [reflexivity|]. split; [exact sample_det|].
  apply (invGeoTransform_coefficients (Qc_of_Z 10) (Qc_of_Z 2) (Qc_of_Z 0)
           (Qc_of_Z 20) (Qc_of_Z 0) (Qc_of_Z 4) nan_gt nan_gt
           3%positive 4%positive [] [] sample_world);
    [reflexivity | reflexivity | exact sample_det].
Defined.

(** C2: for six Numbers in the input array, the status [invGeoTransform]
    returns is 0 when the determinant [c1*c5 - c2*c4] is zero and 1
    otherwise, so a singular transform is never reported as a success; for
    finite coefficients the determinant is zero exactly when the rational
    [c1*c5 - c2*c4] is. *)
Theorem invGeoTransform_status (g dIn dOut : gt) (a b : loc)
    (old rest : list value) (w : world) :
  heap w !! a = Some (OArray (gt_values g)) ->
  heap w !! b = Some (OArray old) ->
  fst (invGeoTransform (lib := spec_lib) dIn dOut (VRef a :: VRef b :: rest) w)
  = Ok (VNumber (of_Z (if is_zero (Spec.det g) then 0 else 1)))
  /\ (forall c0 c1 c2 c3 c4 c5 : Qc,
        g = fin_gt c0 c1 c2 c3 c4 c5 ->
        (is_zero (Spec.det g) = true <-> (c1 * c5 - c2 * c4)%Qc = 0%Qc)).
Proof.
  intros Ha Hb. split.
  - rewrite (invGeoTransform_eval dIn dOut g a b old rest) by assumption.
    cbn [fst GDALInvGeoTransform spec_lib]. unfold Spec.GDALInvGeoTransform.
    destruct (is_zero (Spec.det g)); reflexivity.
  - intros c0 c1 c2 c3 c4 c5 ->. rewrite spec_det_finite. apply is_zero_Fin.
Qed.

(** The all-zero transform of handle 1 has status 0. *)
Lemma invGeoTransform_status_witness :
  heap sample_world !! 1%positive
  = Some (OArray (gt_values (fin_gt (Qc_of_Z 0) (Qc_of_Z 0) (Qc_of_Z 0)
                               (Qc_of_Z 0) (Qc_of_Z 0) (Qc_of_Z 0))))
  /\ heap sample_world !! 2%positive = Some (OArray [VString "kept?"])
  /\ fst (invGeoTransform (lib := spec_lib) nan_gt nan_gt
            [VRef 1%positive; VRef 2%positive] sample_world)
     = Ok (VNumber (of_Z 0)).
Proof.
  split; [reflexivity|]. split; [reflexivity|].
  exact (proj1 (invGeoTransform_status
                  (fin_gt (Qc_of_Z 0) (Qc_of_Z 0) (Qc_of_Z 0)
                          (Qc_of_Z 0) (Qc_of_Z 0) (Qc_of_Z 0))
                  nan_gt nan_gt 1%positive 2%positive [VString "kept?"] []
                  sample_world eq_refl eq_refl)).
Defined.

(** C1: for six finite coefficients with non-zero determinant and a finite
    pixel coordinate, applying the transform, inverting it with
    [invGeoTransform] into an output array of at most six elements and
    applying that array to the result gives the pixel coordinate back,
    exactly (the arithmetic of the embedding is exact). *)
Theorem geotransform_round_trip (c0 c1 c2 c3 c4 c5 x y : Qc) (dIn dOut : gt)
    (a b : loc) (old : list value) (w : world) :
  heap w !! a = Some (OArray (gt_values (fin_gt c0 c1 c2 c3 c4 c5))) ->
  heap w !! b = Some (OArray old) ->
  (length old <= 6)%nat ->
  (c1 * c5 - c2 * c4)%Qc <> 0%Qc ->
  exists (gx gy : Qc) (w1 : world),
    returned_point (applyGeoTransform (lib := spec_lib) dIn
                      [VRef a; VNumber (Fin x); VNumber (Fin y)] w)
    = Some (Fin gx, Fin gy)
    /\ invGeoTransform (lib := spec_lib) dIn dOut [VRef a; VRef b] w
       = (Ok (VNumber (of_Z 1)), w1)
    /\ returned_point (applyGeoTransform (lib := spec_lib) dIn
                         [VRef b; VNumber (Fin gx); VNumber (Fin gy)] w1)
       = Some (Fin x, Fin y).
Proof.
  intros Ha Hb Hlen Hdet.
  exists (c0 + x * c1 + y * c2)%Qc, (c3 + x * c4 + y * c5)%Qc.
  eexists. split; [|split].
  - rewrite (applyGeoTransform_eval dIn (fin_gt c0 c1 c2 c3 c4 c5) a _ (Fin x) (Fin y))
      by (assumption || constructor).
    cbn [GDALApplyGeoTransform spec_lib]. rewrite spec_apply_finite.
    apply returned_point_xy_object.
  - rewrite (invGeoTransform_eval dIn dOut (fin_gt c0 c1 c2 c3 c4 c5) a b old [])
      by assumption.
    cbn [GDALInvGeoTransform spec_lib].
    rewrite (spec_inv_finite c0 c1 c2 c3 c4 c5 dOut Hdet). cbn [fst snd].
    rewrite (drop_ge old 6) by exact Hlen. rewrite app_nil_r. reflexivity.
  - erewrite (applyGeoTransform_eval dIn _ b _
                (Fin (c0 + x * c1 + y * c2)%Qc) (Fin (c3 + x * c4 + y * c5)%Qc));
      [| unfold set_heap; cbn [heap]; apply lookup_insert_eq | constructor].
    cbn [GDALApplyGeoTransform spec_lib].
    rewrite spec_apply_finite.
    unfold set_heap. rewrite returned_point_xy_object. cbn [fst snd].
    do 2 f_equal; f_equal; field; exact Hdet.
Qed.

(** The transform (10, 2, 0, 20, 0, 4) of handle 3, the empty output array
    of handle 4 and the pixel (1, 2). *)
Lemma geotransform_round_trip_witness :
  heap sample_world !! 3%positive
  = Some (OArray (gt_values (fin_gt (Qc_of_Z 10) (Qc_of_Z 2) (Qc_of_Z 0)
                               (Qc_of_Z 20) (Qc_of_Z 0) (Qc_of_Z 4))))
  /\ heap sample_world !! 4%positive = Some (OArray [])
  /\ (length (@nil value) <= 6)%nat
  /\ (Qc_of_Z 2 * Qc_of_Z 4 - Qc_of_Z 0 * Qc_of_Z 0)%Qc <> 0%Qc
  /\ exists (gx gy : Qc) (w1 : world),
       returned_point (applyGeoTransform (lib := spec_lib) nan_gt
                         [VRef 3%positive; VNumber (Fin (Qc_of_Z 1)); VNumber (Fin (Qc_of_Z 2))]
                         sample_world)
       = Some (Fin gx, Fin gy)
       /\ invGeoTransform (lib := spec_lib) nan_gt nan_gt [VRef 3%positive; VRef 4%positive]
            sample_world
          = (Ok (VNumber (of_Z 1)), w1)
       /\ returned_point (applyGeoTransform (lib := spec_lib) nan_gt
                            [VRef 4%positive; VNumber (Fin gx); VNumber (Fin gy)] w1)
          = Some (Fin (Qc_of_Z 1), Fin (Qc_of_Z 2)).
Proof.
  split; [reflexivity|]. split; [reflexivity|]. split; [cbn; lia|].
  split; [exact sample_det|].
  apply (geotransform_round_trip (Qc_of_Z 10) (Qc_of_Z 2) (Qc_of_Z 0)
           (Qc_of_Z 20) (Qc_of_Z 0) (Qc_of_Z 4) (Qc_of_Z 1) (Qc_of_Z 2)
           nan_gt nan_gt 3%positive 4%positive [] sample_world);
    [reflexivity | reflexivity | cbn; lia | exact sample_det].
Defined.

(** ** The rendering of [decToDMS] with the specification's routine *)

Lemma spec_dms_fields (x : Qc) (p : nat) :
  (0 <= x)%Qc ->
  exists d m sec : Z,
    Spec.carry (Spec.split_angle x p) p = (d, m, sec)
    /\ 0 <= d /\ 0 <= m < 60 /\ 0 <= sec < 60 * 10 ^ Z.of_nat p
    /\ (d * 60 + m) * 60 * 10 ^ Z.of_nat p + sec
       = Spec.Qcround (x * Qc_of_Z (3600 * 10 ^ Z.of_nat p))%Qc.
Proof.
  intros Hx.
  pose proof (split_angle_sum x p Hx) as Hsplit.
  destruct (Spec.split_angle x p) as [[d0 m0] s0].
  destruct Hsplit as (Hd & Hm & Hs & Hsum).
  pose proof (carry_sum d0 m0 s0 p Hd Hm Hs) as Hcarry.
  destruct (Spec.carry (d0, m0, s0) p) as [[d m] sec].
  destruct Hcarry as (Hd' & Hm' & Hs' & Hsum').
  exists d, m, sec. repeat split; try tauto; try lia.
Qed.

Lemma spec_GDALDecToDMS_finite (a : Qc) (token : string) (prec : Z) (h : string) :
  0 <= prec ->
  Spec.hemisphere token a = Some h ->
  exists d m sec : Z,
    Spec.GDALDecToDMS (Fin a) token prec
    = Some (Spec.render d m sec (Z.to_nat prec) h)
    /\ 0 <= d /\ 0 <= m < 60 /\ 0 <= sec < 60 * 10 ^ prec
    /\ (d * 60 + m) * 60 * 10 ^ prec + sec
       = Spec.Qcround (Spec.Qcabs a * Qc_of_Z (3600 * 10 ^ prec))%Qc.
Proof.
  intros Hprec Hh. unfold Spec.GDALDecToDMS.
  replace (prec <? 0) with false by (symmetry; apply Z.ltb_ge; exact Hprec).
  rewrite Hh.
  destruct (spec_dms_fields (Spec.Qcabs a) (Z.to_nat prec) (Qcabs_nonneg a))
    as (d & m & sec & E & Hd & Hm & Hs & Hsum).
  rewrite Z2Nat.id in Hs, Hsum by exact Hprec.
  exists d, m, sec. rewrite E. auto.
Qed.

(** C7: for a finite angle, an axis that is let through and a precision
    that is absent (then 2) or a non-negative integer, [decToDMS] returns
    the degrees, the letter d, the minutes, a single quote, the seconds
    with that many fractional digits, a double quote and the hemisphere
    letter, where after the two carries the minutes are
    below 60, the seconds below 60, and the three fields add up to the
    absolute angle rounded to the nearest [10^-precision] second; the
    hemisphere is S or N for a latitude and W or E for a longitude, by the
    sign of the angle.  The three known values of the specification come
    out as stated. *)
Theorem decToDMS_renders (a : Qc) (s : string) (p : option Z) (w : world) :
  (forall z, p = Some z -> 0 <= z < 2 ^ 31) ->
  is_lat (c_str s) \/ is_long (c_str s) ->
  (exists (d m sec : Z) (h : string),
     decToDMS (lib := spec_lib) (VNumber (Fin a) :: VString s :: precision_arg p) w
     = (Ok (VString (Spec.render d m sec (Z.to_nat (default 2 p)) h)), w)
     /\ 0 <= d /\ 0 <= m < 60 /\ 0 <= sec < 60 * 10 ^ default 2 p
     /\ (d * 60 + m) * 60 * 10 ^ default 2 p + sec
        = Spec.Qcround (Spec.Qcabs a * Qc_of_Z (3600 * 10 ^ default 2 p)%Z)%Qc
     /\ (is_lat (c_str s) -> h = if is_negative (Fin a) then "S" else "N")
     /\ (is_long (c_str s) -> h = if is_negative (Fin a) then "W" else "E"))
  /\ fst (decToDMS (lib := spec_lib) [num 0; VString "lat"; num 2] w)
     = Ok (VString ("0d0'0.00" ++ Spec.dquote ++ "N"))
  /\ fst (decToDMS (lib := spec_lib) [num (- 455 # 10); VString "long"; num 2] w)
     = Ok (VString ("45d30'0.00" ++ Spec.dquote ++ "W"))
  /\ fst (decToDMS (lib := spec_lib) [num (45999999 # 1000000); VString "lat"; num 0] w)
     = Ok (VString ("46d0'0" ++ Spec.dquote ++ "N")).
Proof.
  intros Hp Hs.
  assert (Hp32 : forall z, p = Some z -> int32 z).
  { intros z Hz. specialize (Hp z Hz). unfold int32. lia. }
  assert (Hprec : 0 <= default 2 p).
  { destruct p as [z|]; cbn; [apply (Hp z eq_refl) | lia]. }
  split; [|repeat split; reflexivity].
  destruct Hs as [Hs | Hs].
  - rewrite decToDMS_lat by assumption.
    cbn [GDALDecToDMS spec_lib].
    destruct (spec_GDALDecToDMS_finite a "Lat" (default 2 p)
                (if is_negative (Fin a) then "S" else "N") Hprec eq_refl)
      as (d & m & sec & E & Hd & Hm & Hsec & Hsum).
    exists d, m, sec, (if is_negative (Fin a) then "S" else "N")%string.
    rewrite E. cbn [SafeString_New]. repeat split; try tauto; try lia.
    intros Hl. apply capitalize_is_Lat in Hs. apply capitalize_is_Long in Hl.
    congruence.
  - rewrite decToDMS_long by assumption.
    cbn [GDALDecToDMS spec_lib].
    destruct (spec_GDALDecToDMS_finite a "Long" (default 2 p)
                (if is_negative (Fin a) then "W" else "E") Hprec eq_refl)
      as (d & m & sec & E & Hd & Hm & Hsec & Hsum).
    exists d, m, sec, (if is_negative (Fin a) then "W" else "E")%string.
    rewrite E. cbn [SafeString_New]. repeat split; try tauto; try lia.
    intros Hl. apply capitalize_is_Long in Hs. apply capitalize_is_Lat in Hl.
    congruence.
Qed.

(** The angle 45.999999 at precision 0, where both carries happen. *)
Lemma decToDMS_renders_witness :
  (forall z, Some 0 = Some z -> 0 <= z < 2 ^ 31)
  /\ (is_lat (c_str "lat") \/ is_long (c_str "lat"))
  /\ (exists (d m sec : Z) (h : string),
        decToDMS (lib := spec_lib)
          (VNumber (Fin (Q2Qc (45999999 # 1000000))) :: VString "lat" :: precision_arg (Some 0))
          sample_world
        = (Ok (VString (Spec.render d m sec (Z.to_nat (default 2 (Some 0))) h)), sample_world)
        /\ 0 <= d /\ 0 <= m < 60 /\ 0 <= sec < 60 * 10 ^ default 2 (Some 0)
        /\ (d * 60 + m) * 60 * 10 ^ default 2 (Some 0) + sec
           = Spec.Qcround (Spec.Qcabs (Q2Qc (45999999 # 1000000))
                           * Qc_of_Z (3600 * 10 ^ default 2 (Some 0))%Z)%Qc
        /\ (is_lat (c_str "lat") ->
            h = if is_negative (Fin (Q2Qc (45999999 # 1000000))) then "S" else "N")
        /\ (is_long (c_str "lat") ->
            h = if is_negative (Fin (Q2Qc (45999999 # 1000000))) then "W" else "E"))
  /\ fst (decToDMS (lib := spec_lib) [num 0; VString "lat"; num 2] sample_world)
     = Ok (VString ("0d0'0.00" ++ Spec.dquote ++ "N"))
  /\ fst (decToDMS (lib := spec_lib) [num (- 455 # 10); VString "long"; num 2] sample_world)
     = Ok (VString ("45d30'0.00" ++ Spec.dquote ++ "W"))
  /\ fst (decToDMS (lib := spec_lib) [num (45999999 # 1000000); VString "lat"; num 0]
            sample_world)
     = Ok (VString ("46d0'0" ++ Spec.dquote ++ "N")).
Proof.
  assert (Hp : forall z, Some 0 = Some z -> 0 <= z < 2 ^ 31).
  { intros z Hz. injection Hz as <-. lia. }
  assert (Hs : is_lat (c_str "lat") \/ is_long (c_str "lat")).
  { left. left. reflexivity. }
  split; [exact Hp|]. split; [exact Hs|].
  exact (decToDMS_renders (Q2Qc (45999999 # 1000000)) "lat" (Some 0) sample_world Hp Hs).
Defined.

(** ** The option store *)

Lemma c_str_idempotent (s : string) : c_str (c_str s) = c_str s.
Proof.
  induction s as [|c r IH]; cbn [c_str]; [reflexivity|].
  destruct (Ascii.eqb c "000") eqn:E; [reflexivity|].
  cbn [c_str]. rewrite E, IH. reflexivity.
Qed.

(** C10: [setConfigOption(name, value)] stores the value when it is a
    String (as the C string it denotes, under the name as a C string),
    unsets the name when the value is null or undefined, throws an Error
    for a value of any other type and when fewer than two arguments are
    given; [getConfigOption(name)] afterwards returns the stored string,
    or null when the name is unset. *)
Theorem config_option_set_get (name : string) (v : value) (w : world) :
  match v with
  | VString s =>
      let w' := set_config (<[c_str name := c_str s]> (config w)) w in
      setConfigOption (lib := spec_lib) [VString name; v] w = (Ok VUndefined, w')
      /\ getConfigOption (lib := spec_lib) [VString name] w' = (Ok (VString (c_str s)), w')
  | VNull | VUndefined =>
      let w' := set_config (delete (c_str name) (config w)) w in
      setConfigOption (lib := spec_lib) [VString name; v] w = (Ok VUndefined, w')
      /\ getConfigOption (lib := spec_lib) [VString name] w' = (Ok VNull, w')
  | _ =>
      setConfigOption (lib := spec_lib) [VString name; v] w
      = (Throw Error "value must be a string or null", w)
  end
  /\ setConfigOption (lib := spec_lib) [VString name] w
     = (Throw Error "string or null value must be provided", w)
  /\ is_throw (fst (setConfigOption (lib := spec_lib) [] w)) = true
  /\ getConfigOption (lib := spec_lib) [VString name] w
     = (Ok (SafeString_New (config w !! c_str name)), w).
Proof.
  assert (Hget : forall w0, getConfigOption (lib := spec_lib) [VString name] w0
                 = (Ok (SafeString_New (config w0 !! c_str name)), w0)).
  { intros w0. unfold getConfigOption, bind. cbn [NODE_ARG_STR length Nat.ltb Nat.leb
      Nat.add IsString arg nth negb ret Utf8String CPLGetConfigOption spec_lib].
    unfold Spec.CPLGetConfigOption. rewrite c_str_idempotent.
    destruct (config w0 !! c_str name); reflexivity. }
  split; [|split; [reflexivity | split; [reflexivity | apply Hget]]].
  destruct v as [| | | |s|]; try reflexivity.
  - (* undefined *)
    split.
    + unfold setConfigOption, bind. cbn. rewrite c_str_idempotent. reflexivity.
    + rewrite Hget. unfold set_config. cbn [config].
      rewrite lookup_delete_eq. reflexivity.
  - (* null *)
    split.
    + unfold setConfigOption, bind. cbn. rewrite c_str_idempotent. reflexivity.
    + rewrite Hget. unfold set_config. cbn [config].
      rewrite lookup_delete_eq. reflexivity.
  - (* a String *)
    split.
    + unfold setConfigOption, bind. cbn. rewrite !c_str_idempotent. reflexivity.
    + rewrite Hget. unfold set_config. cbn [config].
      rewrite lookup_insert_eq. reflexivity.
Qed.

(** * Further properties of the bindings *)

(** ** Every way a call of [invGeoTransform] can go *)

Lemma arg_cons_0 (v : value) (info : list value) : arg (v :: info) 0 = v.
Proof. reflexivity. Qed.

Lemma arg_VRef_0 (info : list value) (l : loc) :
  arg info 0 = VRef l -> exists rest, info = VRef l :: rest.
Proof.
  destruct info as [|v rest]; cbn; [discriminate|].
  intros ->. exists rest. reflexivity.
Qed.

Lemma arg_VRef_1 (info : list value) (l : loc) :
  arg info 1 = VRef l -> exists v rest, info = v :: VRef l :: rest.
Proof.
  destruct info as [|v [|v1 rest]]; cbn; try discriminate.
  intros ->. exists v, rest. reflexivity.
Qed.

Section AnyLibraryCases.
Context {lib : GDALLib}.

(** Either both arguments are arrays and the first holds six Numbers, or
    an error is thrown that depends neither on the library nor on the
    automatic arrays, and nothing is written. *)
Lemma invGeoTransform_cases (info : list value) (w : world) :
  (exists a b g old rest,
      info = VRef a :: VRef b :: rest
      /\ heap w !! a = Some (OArray (gt_values g))
      /\ heap w !! b = Some (OArray old))
  \/ (exists k msg, forall dIn dOut,
        invGeoTransform dIn dOut info w = (Throw k msg, w)).
Proof.
  destruct info as [|v0 [|v1 rest]].
  - right. eexists _, _. intros dIn dOut. reflexivity.
  - right.
    destruct (NODE_ARG_ARRAY_cases [v0] 0 "gtIn" w)
      as [(l & es & _ & _ & E) | (k & msg & E)].
    + eexists _, _. intros dIn dOut. unfold invGeoTransform.
      unfold bind at 1. rewrite E. reflexivity.
    + exists k, msg. intros dIn dOut. unfold invGeoTransform.
      unfold bind at 1. rewrite E. reflexivity.
  - destruct (NODE_ARG_ARRAY_cases (v0 :: v1 :: rest) 0 "gtIn" w)
      as [(a & es & Ea & Ha & E0) | (k & msg & E0)].
    2:{ right. exists k, msg. intros dIn dOut. unfold invGeoTransform.
        unfold bind at 1. rewrite E0. reflexivity. }
    cbn in Ea. subst v0.
    destruct (NODE_ARG_ARRAY_cases (VRef a :: v1 :: rest) 1 "gtOut" w)
      as [(b & old & Eb & Hb & E1) | (k & msg & E1)].
    2:{ right. exists k, msg. intros dIn dOut. unfold invGeoTransform.
        unfold bind at 1. rewrite E0. unfold bind at 1. rewrite E1. reflexivity. }
    cbn in Eb. subst v1.
    destruct (acceptable es) eqn:Eacc.
    + left. destruct (acceptable_gt_values es Eacc) as [g ->].
      exists a, b, g, old, rest. auto.
    + right. eexists _, _. intros dIn dOut.
      rewrite (invGeoTransform_rejects dIn dOut a es) by assumption.
      rewrite E1. reflexivity.
Qed.

End AnyLibraryCases.

(** ** Every way a call of [applyGeoTransform] can go *)

(** The point is taken from an object when there are exactly two arguments
    and the second is an object, from the second and third arguments
    otherwise; nothing else yields a point, and the world is not touched. *)
Lemma point_argument_ok (info : list value) (x y : number) (w : world) :
  point_argument info w = (Ok (x, y), w)
  <-> (length info = 2%nat
       /\ exists o ps, arg info 1 = VRef o /\ heap w !! o = Some (OObject ps)
                       /\ ps !! "x"%string = Some (VNumber x)
                       /\ ps !! "y"%string = Some (VNumber y))
      \/ ((3 <= length info)%nat
          /\ arg info 1 = VNumber x /\ arg info 2 = VNumber y).
Proof.
  destruct info as [|a [|b [|c rest]]].
  - split; [discriminate | intros [[H _] | [H _]]; cbn in H; lia].
  - split; [discriminate | intros [[H _] | [H _]]; cbn in H; lia].
  - unfold point_argument, bind, get_heap, ret. cbn [length Nat.eqb andb arg nth].
    destruct b as [| | | | |o]; cbn [IsObject];
      try (split; [discriminate
                  | intros [(_ & ? & ? & H & _) | [H _]];
                    [discriminate H | cbn in H; lia]]).
    destruct (heap w !! o) as [[es|ps]|] eqn:Eo.
    + unfold Object_Get, object_get. rewrite Eo. cbn.
      split; [discriminate|].
      intros [(_ & o' & ps & H & Ho & _) | [H _]]; [|cbn in H; lia].
      injection H as <-. congruence.
    + unfold Object_Get, object_get. rewrite Eo.
      destruct (ps !! "x"%string) as [[| | |vx| |]|] eqn:Ex;
        destruct (ps !! "y"%string) as [[| | |vy| |]|] eqn:Ey; cbn;
        (split; [intros H; try discriminate H
                | intros [(_ & o' & ps' & H & Ho & Hx & Hy) | [H _]];
                  [injection H as <-; congruence | cbn in H; lia]]).
      injection H as <- <-. left. split; [reflexivity|]. exists o, ps. auto.
    + split; [discriminate|].
      intros [(_ & o' & ps & H & Ho & _) | [H _]]; [|cbn in H; lia].
      injection H as <-. congruence.
  - unfold point_argument, bind, get_heap, ret. cbn [length Nat.eqb andb arg nth].
    unfold NODE_ARG_DOUBLE, ret. cbn [length Nat.ltb Nat.leb Nat.add arg nth].
    destruct b as [| | |nb| |]; destruct c as [| | |nc| |]; cbn;
      (split; [intros H; try discriminate H
              | intros [[H _] | (_ & Hb & Hc)]; [discriminate H | try discriminate Hb; try discriminate Hc]]).
    + injection H as <- <-. right. split; [lia | auto].
    + injection Hb as <-. injection Hc as <-. reflexivity.
Qed.

(** Taking the point never changes the world. *)
Lemma point_argument_world (info : list value) (w : world) :
  snd (point_argument info w) = w.
Proof.
  unfold point_argument, bind, get_heap, Object_Get, NODE_ARG_DOUBLE, ret, throw.
  repeat case_match; simplify_eq; reflexivity.
Qed.

Section AnyLibraryPoint.
Context {lib : GDALLib}.

(** [applyGeoTransform_eval] with the point as [point_argument] yields it. *)
Lemma applyGeoTransform_eval_point (dIn g : gt) (a : loc) (rest : list value)
    (x y : number) (w : world) :
  heap w !! a = Some (OArray (gt_values g)) ->
  point_argument (VRef a :: rest) w = (Ok (x, y), w) ->
  applyGeoTransform dIn (VRef a :: rest) w
  = (Ok (VRef (alloc (heap w))),
     set_heap (<[alloc (heap w) :=
                   xy_object (fst (GDALApplyGeoTransform g x y))
                             (snd (GDALApplyGeoTransform g x y))]> (heap w)) w).
Proof.
  intros Ha Hp. unfold applyGeoTransform.
  unfold bind at 1.
  rewrite (NODE_ARG_ARRAY_array _ 0 _ a (gt_values g)) by (cbn; first [lia | done]).
  unfold bind at 1. unfold Array_Length at 1.
  rewrite (array_elems_lookup _ _ _ Ha).
  change (negb (length (gt_values g) =? 6)%nat) with false. cbv iota.
  unfold bind at 1. rewrite (read_coefficients_numbers a g) by exact Ha.
  unfold bind at 1. rewrite Hp.
  cbn [fst snd].
  destruct (GDALApplyGeoTransform g x y) as [xout yout]. cbn [fst snd].
  unfold bind, New_Object, Object_Set, ret, set_heap, xy_object. cbn [heap config].
  rewrite !lookup_insert_eq, !insert_insert_eq. reflexivity.
Qed.

(** An error of the point argument is the error of the call. *)
Lemma applyGeoTransform_point_throws (dIn g : gt) (a : loc) (rest : list value)
    (k : errkind) (msg : string) (w : world) :
  heap w !! a = Some (OArray (gt_values g)) ->
  point_argument (VRef a :: rest) w = (Throw k msg, w) ->
  applyGeoTransform dIn (VRef a :: rest) w = (Throw k msg, w).
Proof.
  intros Ha Hp. unfold applyGeoTransform.
  unfold bind at 1.
  rewrite (NODE_ARG_ARRAY_array _ 0 _ a (gt_values g)) by (cbn; first [lia | done]).
  unfold bind at 1. unfold Array_Length at 1.
  rewrite (array_elems_lookup _ _ _ Ha).
  change (negb (length (gt_values g) =? 6)%nat) with false. cbv iota.
  unfold bind at 1. rewrite (read_coefficients_numbers a g) by exact Ha.
  unfold bind at 1. rewrite Hp. reflexivity.
Qed.

(** Either the first argument holds six Numbers and a point is given, or
    an error is thrown that depends neither on the library nor on the
    automatic array, and nothing is allocated. *)
Lemma applyGeoTransform_cases (info : list value) (w : world) :
  (exists a g rest x y,
      info = VRef a :: rest
      /\ heap w !! a = Some (OArray (gt_values g))
      /\ point_argument info w = (Ok (x, y), w))
  \/ (exists k msg, forall dIn, applyGeoTransform dIn info w = (Throw k msg, w)).
Proof.
  destruct (NODE_ARG_ARRAY_cases info 0 "gtIn" w)
    as [(a & es & Ea & Ha & E0) | (k & msg & E0)].
  2:{ right. exists k, msg. intros dIn. unfold applyGeoTransform.
      unfold bind at 1. rewrite E0. reflexivity. }
  destruct (arg_VRef_0 info a Ea) as [rest ->].
  destruct (acceptable es) eqn:Eacc.
  - destruct (acceptable_gt_values es Eacc) as [g ->].
    pose proof (point_argument_world (VRef a :: rest) w) as Hw.
    destruct (point_argument (VRef a :: rest) w) as [[[x y]|k msg] w'] eqn:Ep;
      cbn in Hw; subst w'.
    + left. exists a, g, rest, x, y. auto.
    + right. exists k, msg. intros dIn.
      apply (applyGeoTransform_point_throws dIn g); assumption.
  - right. eexists _, _. intros dIn.
    apply (applyGeoTransform_rejects dIn a es); assumption.
Qed.

End AnyLibraryPoint.

(** ** Properties of the two geotransform methods *)

Lemma alloc_fresh (h : gmap loc object) : h !! alloc h = None.
Proof. apply not_elem_of_dom. unfold alloc. apply is_fresh. Qed.

(** X1: what the automatic array [dfgtIn] holds on entry has no influence
    on either method, whatever the arguments: every element that is used
    has been stored by the loop first. *)
Theorem automatic_input_array_unused {lib : GDALLib} (dIn dIn' dOut : gt)
    (info : list value) (w : world) :
  invGeoTransform dIn dOut info w = invGeoTransform dIn' dOut info w
  /\ applyGeoTransform dIn info w = applyGeoTransform dIn' info w.
Proof.
  split.
  - destruct (invGeoTransform_cases info w)
      as [(a & b & g & old & rest & -> & Ha & Hb) | (k & msg & E)].
    + rewrite !(invGeoTransform_eval _ dOut g a b old rest) by assumption.
      reflexivity.
    + rewrite !E. reflexivity.
  - destruct (applyGeoTransform_cases info w)
      as [(a & g & rest & x & y & -> & Ha & Hp) | (k & msg & E)].
    + rewrite !(applyGeoTransform_eval_point _ g a rest x y) by assumption.
      reflexivity.
    + rewrite !E. reflexivity.
Qed.

(** X2: [invGeoTransform] returns without throwing exactly when its first
    argument is an array of six Numbers and its second argument is an
    array. *)
Theorem invGeoTransform_succeeds_iff {lib : GDALLib} (dIn dOut : gt)
    (info : list value) (w : world) :
  is_throw (fst (invGeoTransform dIn dOut info w)) = false
  <-> exists a b es old,
        arg info 0 = VRef a /\ arg info 1 = VRef b
        /\ heap w !! a = Some (OArray es) /\ acceptable es = true
        /\ heap w !! b = Some (OArray old).
Proof.
  split.
  - destruct (invGeoTransform_cases info w)
      as [(a & b & g & old & rest & -> & Ha & Hb) | (k & msg & E)].
    + intros _. exists a, b, (gt_values g), old. auto.
    + rewrite E. discriminate.
  - intros (a & b & es & old & E0 & E1 & Ha & Hacc & Hb).
    destruct (arg_VRef_1 info b E1) as (v & rest & ->).
    cbn in E0. subst v.
    destruct (acceptable_gt_values es Hacc) as [g ->].
    rewrite (invGeoTransform_eval dIn dOut g a b old rest) by assumption.
    reflexivity.
Qed.

(** X3: [invGeoTransform] leaves the option store alone and changes no
    heap object other than the one its second argument refers to, so an
    input array that is not also the output array stays as it was; when
    it throws, it has changed nothing at all. *)
Theorem invGeoTransform_frame {lib : GDALLib} (dIn dOut : gt)
    (info : list value) (w : world) :
  config (snd (invGeoTransform dIn dOut info w)) = config w
  /\ (forall l, arg info 1 <> VRef l ->
        heap (snd (invGeoTransform dIn dOut info w)) !! l = heap w !! l)
  /\ (is_throw (fst (invGeoTransform dIn dOut info w)) = true ->
        snd (invGeoTransform dIn dOut info w) = w).
Proof.
  destruct (invGeoTransform_cases info w)
    as [(a & b & g & old & rest & -> & Ha & Hb) | (k & msg & E)].
  - rewrite (invGeoTransform_eval dIn dOut g a b old rest) by assumption.
    cbn [fst snd is_throw]. split; [reflexivity|]. split; [|discriminate].
    intros l Hl. unfold set_heap. cbn [heap].
    apply lookup_insert_ne. intros ->. apply Hl. reflexivity.
  - rewrite E. cbn. auto.
Qed.

(** X4: the same array may be given as input and output: the six inputs
    are read before the first write, so the array ends up holding what the
    library routine computed from its original contents. *)
Theorem invGeoTransform_in_place {lib : GDALLib} (dIn dOut g : gt) (a : loc)
    (rest : list value) (w : world) :
  heap w !! a = Some (OArray (gt_values g)) ->
  invGeoTransform dIn dOut (VRef a :: VRef a :: rest) w
  = (Ok (VNumber (of_Z (fst (GDALInvGeoTransform g dOut)))),
     set_heap (<[a := OArray (gt_values (snd (GDALInvGeoTransform g dOut)))]>
                 (heap w)) w).
Proof.
  intros Ha.
  rewrite (invGeoTransform_eval dIn dOut g a a (gt_values g) rest) by assumption.
  cbn [gt_values drop]. rewrite app_nil_r. reflexivity.
Qed.

(** X5: [applyGeoTransform] leaves the option store and every existing
    heap object as they were; when it throws nothing is allocated, and
    when it returns, the value is a handle that was not in use before the
    call. *)
Theorem applyGeoTransform_frame {lib : GDALLib} (dIn : gt)
    (info : list value) (w : world) :
  config (snd (applyGeoTransform dIn info w)) = config w
  /\ (forall l, is_Some (heap w !! l) ->
        heap (snd (applyGeoTransform dIn info w)) !! l = heap w !! l)
  /\ (is_throw (fst (applyGeoTransform dIn info w)) = true ->
        snd (applyGeoTransform dIn info w) = w)
  /\ (forall v, fst (applyGeoTransform dIn info w) = Ok v ->
        exists l, v = VRef l /\ heap w !! l = None
                  /\ is_Some (heap (snd (applyGeoTransform dIn info w)) !! l)).
Proof.
  destruct (applyGeoTransform_cases info w)
    as [(a & g & rest & x & y & -> & Ha & Hp) | (k & msg & E)].
  - rewrite (applyGeoTransform_eval_point dIn g a rest x y) by assumption.
    cbn [fst snd is_throw]. unfold set_heap. cbn [heap config].
    split; [reflexivity|]. split; [|split; [discriminate|]].
    + intros l [o Hl]. apply lookup_insert_ne. intros <-.
      rewrite alloc_fresh in Hl. discriminate.
    + intros v Hv. injection Hv as <-. exists (alloc (heap w)).
      split; [reflexivity|]. split; [apply alloc_fresh|].
      rewrite lookup_insert_eq. eauto.
  - rewrite E. cbn. split; [reflexivity|]. split; [reflexivity|].
    split; [reflexivity | discriminate].
Qed.

(** X6: [applyGeoTransform] returns without throwing exactly when its
    first argument is an array of six Numbers and the point is given
    either as the only other argument, an object with Number properties
    [x] and [y], or as Numbers in second and third position of at least
    three arguments. *)
Theorem applyGeoTransform_succeeds_iff {lib : GDALLib} (dIn : gt)
    (info : list value) (w : world) :
  is_throw (fst (applyGeoTransform dIn info w)) = false
  <-> exists a es x y,
        arg info 0 = VRef a /\ heap w !! a = Some (OArray es)
        /\ acceptable es = true
        /\ ((length info = 2%nat
             /\ exists o ps, arg info 1 = VRef o /\ heap w !! o = Some (OObject ps)
                             /\ ps !! "x"%string = Some (VNumber x)
                             /\ ps !! "y"%string = Some (VNumber y))
            \/ ((3 <= length info)%nat
                /\ arg info 1 = VNumber x /\ arg info 2 = VNumber y)).
Proof.
  split.
  - destruct (applyGeoTransform_cases info w)
      as [(a & g & rest & x & y & -> & Ha & Hp) | (k & msg & E)].
    + intros _. exists a, (gt_values g), x, y.
      split; [reflexivity|]. split; [exact Ha|]. split; [reflexivity|].
      apply point_argument_ok. exact Hp.
    + rewrite E. discriminate.
  - intros (a & es & x & y & E0 & Ha & Hacc & Hp).
    destruct (arg_VRef_0 info a E0) as [rest ->].
    destruct (acceptable_gt_values es Hacc) as [g ->].
    apply point_argument_ok in Hp.
    rewrite (applyGeoTransform_eval_point dIn g a rest x y) by assumption.
    reflexivity.
Qed.

(** X7: giving the point as an object with Number properties [x] and [y]
    and giving it as two Numbers lead to the same completion and the same
    world, whatever the coefficient array holds. *)
Theorem applyGeoTransform_point_forms_agree {lib : GDALLib} (dIn : gt) (a : loc)
    (es rest : list value) (x y : number) (w : world) :
  heap w !! a = Some (OArray es) ->
  point_given w x y rest ->
  applyGeoTransform dIn (VRef a :: rest) w
  = applyGeoTransform dIn [VRef a; VNumber x; VNumber y] w.
Proof.
  intros Ha Hp. destruct (acceptable es) eqn:Eacc.
  - destruct (acceptable_gt_values es Eacc) as [g ->].
    rewrite (applyGeoTransform_eval dIn g a rest x y) by assumption.
    rewrite (applyGeoTransform_eval dIn g a _ x y) by (assumption || constructor).
    reflexivity.
  - rewrite !(applyGeoTransform_rejects dIn a es) by assumption. reflexivity.
Qed.

(** X8: with two arguments, a second argument that is an object or an
    array without a Number [x] and a Number [y] is rejected with the Error
    of line 240; in particular a point written as an array is. *)
Theorem applyGeoTransform_point_rejected {lib : GDALLib} (dIn g : gt) (a o : loc)
    (obj : object) (w : world) :
  heap w !! a = Some (OArray (gt_values g)) ->
  heap w !! o = Some obj ->
  IsNumber (object_get (heap w) o "x") && IsNumber (object_get (heap w) o "y") = false ->
  applyGeoTransform dIn [VRef a; VRef o] w
  = (Throw Error "point must contain numerical properties x and y", w).
Proof.
  intros Ha Ho Hxy.
  apply (applyGeoTransform_point_throws dIn g); [exact Ha|].
  unfold point_argument, bind, get_heap, Object_Get.
  cbn [length Nat.eqb andb arg nth IsObject]. rewrite Ho.
  destruct (IsNumber (object_get (heap w) o "x"));
    destruct (IsNumber (object_get (heap w) o "y")); try discriminate; reflexivity.
Qed.

(** ** Properties of [decToDMS] *)

Lemma IsInt32_int32 (v : value) : IsInt32 v = true -> int32 (IntegerValue v).
Proof.
  destruct v as [| | |[q| | |]| |]; try discriminate. cbn.
  intros H. apply andb_prop in H. destruct H as [H Hlt].
  apply andb_prop in H. destruct H as [_ Hle].
  apply Z.leb_le in Hle. apply Z.ltb_lt in Hlt. unfold int32. lia.
Qed.

(** The optional integer is the default, an int, or an error. *)
Lemma NODE_ARG_INT_OPT_cases (info : list value) (num : nat) (name : string)
    (var : Z) (w : world) :
  (exists p, NODE_ARG_INT_OPT info num name var w = (Ok p, w)
             /\ (p = var \/ int32 p))
  \/ (exists k msg, NODE_ARG_INT_OPT info num name var w = (Throw k msg, w)).
Proof.
  unfold NODE_ARG_INT_OPT.
  destruct (num <? length info)%nat; [|left; exists var; auto].
  destruct (IsInt32 (arg info num)) eqn:E.
  - left. eexists. split; [reflexivity|]. right. apply IsInt32_int32. exact E.
  - destruct (negb (IsNull (arg info num)) && negb (IsUndefined (arg info num))).
    + right. eexists _, _. reflexivity.
    + left. exists var. auto.
Qed.

Section AnyLibraryDMS.
Context {lib : GDALLib}.

(** [decToDMS_eval] for any tail of arguments that yields a precision. *)
Lemma decToDMS_eval_precision (n : number) (s : string) (rest : list value)
    (p : Z) (w : world) :
  NODE_ARG_INT_OPT (VNumber n :: VString s :: rest) 2 "precision" 2 w = (Ok p, w) ->
  decToDMS (VNumber n :: VString s :: rest) w
  = (if negb (String.eqb (capitalize (c_str s)) "Lat")
        && negb (String.eqb (capitalize (c_str s)) "Long")
     then Throw Error "Axis must be 'lat' or 'long'"
     else Ok (SafeString_New (GDALDecToDMS n (c_str (capitalize (c_str s))) p)),
     w).
Proof.
  intros Hp. unfold decToDMS, bind.
  change (NODE_ARG_DOUBLE (VNumber n :: VString s :: rest) 0 "angle" w)
    with (@Ok number n, w).
  cbv iota.
  change (NODE_ARG_STR (VNumber n :: VString s :: rest) 1 "axis" w)
    with (@Ok string (c_str s), w).
  cbv iota. rewrite Hp.
  destruct (negb (String.eqb (capitalize (c_str s)) "Lat")
            && negb (String.eqb (capitalize (c_str s)) "Long")); reflexivity.
Qed.

(** Either the first two arguments are a Number and a String and the
    precision is read, or an error is thrown and the world is kept. *)
Lemma decToDMS_cases (info : list value) (w : world) :
  (exists n s rest p,
      info = VNumber n :: VString s :: rest
      /\ NODE_ARG_INT_OPT info 2 "precision" 2 w = (Ok p, w)
      /\ (p = 2 \/ int32 p))
  \/ (exists k msg, decToDMS info w = (Throw k msg, w)).
Proof.
  destruct info as [|v0 [|v1 rest]].
  - right. eexists _, _. reflexivity.
  - right. destruct v0; eexists _, _; reflexivity.
  - destruct v0 as [| | |n| |]; try (right; eexists _, _; reflexivity).
    destruct v1 as [| | | |s|]; try (right; eexists _, _; reflexivity).
    destruct (NODE_ARG_INT_OPT_cases (VNumber n :: VString s :: rest) 2 "precision" 2 w)
      as [(p & E & Hp) | (k & msg & E)].
    + left. exists n, s, rest, p. auto.
    + right. exists k, msg. unfold decToDMS, bind.
      change (NODE_ARG_DOUBLE (VNumber n :: VString s :: rest) 0 "angle" w)
        with (@Ok number n, w).
      cbv iota.
      change (NODE_ARG_STR (VNumber n :: VString s :: rest) 1 "axis" w)
        with (@Ok string (c_str s), w).
      cbv iota. rewrite E. reflexivity.
Qed.

End AnyLibraryDMS.

(** The default precision fits an int. *)
Lemma int32_2 : int32 2.
Proof. unfold int32. lia. Qed.

(** X9: [decToDMS] never changes the world, whatever its arguments and
    whether it returns or throws. *)
Theorem decToDMS_pure {lib : GDALLib} (info : list value) (w : world) :
  snd (decToDMS info w) = w.
Proof.
  destruct (decToDMS_cases info w)
    as [(n & s & rest & p & -> & E & _) | (k & msg & E)].
  - rewrite (decToDMS_eval_precision n s rest p) by exact E. reflexivity.
  - rewrite E. reflexivity.
Qed.

(** X10: whenever [decToDMS] returns a value, the angle was a Number, the
    axis a String reading lat, Lat, long or Long, and the value is what
    the library routine gave for that angle, the token Lat or Long and a
    precision in the range of an int, which is 2 when no third argument
    is given: the routine is never given any other axis. *)
Theorem decToDMS_success {lib : GDALLib} (info : list value) (v : value)
    (w w' : world) :
  decToDMS info w = (Ok v, w') ->
  exists n s token p,
    arg info 0 = VNumber n /\ arg info 1 = VString s
    /\ ((is_lat (c_str s) /\ token = "Lat"%string)
        \/ (is_long (c_str s) /\ token = "Long"%string))
    /\ int32 p
    /\ ((length info <= 2)%nat -> p = 2)
    /\ v = SafeString_New (GDALDecToDMS n token p).
Proof.
  destruct (decToDMS_cases info w)
    as [(n & s & rest & p & -> & E & Hp) | (k & msg & E)].
  2:{ rewrite E. discriminate. }
  rewrite (decToDMS_eval_precision n s rest p) by exact E.
  assert (Hp32 : int32 p) by (destruct Hp as [-> | Hp]; [apply int32_2 | exact Hp]).
  assert (Hdef : (length (VNumber n :: VString s :: rest) <= 2)%nat -> p = 2).
  { destruct rest as [|v2 rest]; [|cbn; lia].
    intros _. cbn in E. injection E as <-. reflexivity. }
  destruct (String.eqb_spec (capitalize (c_str s)) "Lat") as [Elat | _].
  - cbn [negb andb]. intros H. injection H as <- _.
    exists n, s, "Lat"%string, p. rewrite Elat.
    apply capitalize_is_Lat in Elat.
    split; [reflexivity|]. split; [reflexivity|].
    split; [left; split; [exact Elat | reflexivity]|].
    split; [exact Hp32|]. split; [exact Hdef | reflexivity].
  - destruct (String.eqb_spec (capitalize (c_str s)) "Long") as [Elong | _].
    + cbn [negb andb]. intros H. injection H as <- _.
      exists n, s, "Long"%string, p. rewrite Elong.
      apply capitalize_is_Long in Elong.
      split; [reflexivity|]. split; [reflexivity|].
      split; [right; split; [exact Elong | reflexivity]|].
      split; [exact Hp32|]. split; [exact Hdef | reflexivity].
    + cbn [negb andb]. discriminate.
Qed.

(** ** Properties of the two option methods *)

(** X11: [setConfigOption] never touches the heap and changes nothing when
    it throws; [getConfigOption] never changes the world. *)
Theorem config_methods_frame {lib : GDALLib} (info : list value) (w : world) :
  heap (snd (setConfigOption info w)) = heap w
  /\ (is_throw (fst (setConfigOption info w)) = true ->
        snd (setConfigOption info w) = w)
  /\ snd (getConfigOption info w) = w.
Proof.
  unfold setConfigOption, getConfigOption, bind, NODE_ARG_STR, throw, ret.
  repeat split; repeat case_match; simplify_eq; cbn; try reflexivity; try discriminate.
Qed.

(** X12: names and values reach the library as C strings: what follows a
    first NUL in the name or in the value makes no difference to
    [setConfigOption] or [getConfigOption]. *)
Theorem config_options_are_c_strings {lib : GDALLib} (name val : string) (w : world) :
  setConfigOption [VString name; VString val] w
  = setConfigOption [VString (c_str name); VString (c_str val)] w
  /\ setConfigOption [VString name; VNull] w
     = setConfigOption [VString (c_str name); VNull] w
  /\ getConfigOption [VString name] w = getConfigOption [VString (c_str name)] w.
Proof.
  unfold setConfigOption, getConfigOption, bind. cbn.
  rewrite !c_str_idempotent. auto.
Qed.

(** ** Properties of [open] *)

Section AnyOpenLibrary.
Context {olib : OpenLib}.

(** [open] on a String path and a String mode. *)
Lemma open_eval (path mode : string) (rest : list value) (w : world) :
  open (VString path :: VString mode :: rest) w
  = (if GDAL_VERSION_MAJOR <? 2 then
       if String.eqb (c_str mode) "r+" then open_before_2 (c_str path) GA_Update
       else if negb (String.eqb (c_str mode) "r") then throw Error invalid_open_mode
       else open_before_2 (c_str path) GA_ReadOnly
     else
       if String.eqb (c_str mode) "r+" then open_from_2 (c_str path) (Z.lor 0 GDAL_OF_UPDATE)
       else if String.eqb (c_str mode) "r" then open_from_2 (c_str path) (Z.lor 0 GDAL_OF_READONLY)
       else throw Error invalid_open_mode) w.
Proof. reflexivity. Qed.

End AnyOpenLibrary.

(** X13: a mode that reads neither r nor r+ is rejected with the Error of
    lines 42 and 64, for either major version and without any of the open
    routines deciding anything: the world is kept. *)
Theorem open_invalid_mode {olib : OpenLib} (path mode : string)
    (rest : list value) (w : world) :
  c_str mode <> "r"%string ->
  c_str mode <> "r+"%string ->
  open (VString path :: VString mode :: rest) w
  = (Throw Error invalid_open_mode, w).
Proof.
  intros Hr Hrp. rewrite open_eval.
  destruct (String.eqb_spec (c_str mode) "r+") as [E | _]; [contradiction|].
  destruct (String.eqb_spec (c_str mode) "r") as [E | _]; [contradiction|].
  destruct (GDAL_VERSION_MAJOR <? 2); reflexivity.
Qed.

(** X14: with the mode left out (it is then r) or a mode reading r or r+,
    when none of the open routines opens the path, [open] throws the
    Error of line 75 and keeps the world, for either major version. *)
Theorem open_nothing_opens {olib : OpenLib} (path : string)
    (more : list value) (w : world) :
  more = []
  \/ (exists mode rest, more = VString mode :: rest
        /\ (c_str mode = "r"%string \/ c_str mode = "r+"%string)) ->
  (forall access, OGRSFDriverRegistrar_Open (c_str path) access = None) ->
  (forall access, GDALOpen (c_str path) access = None) ->
  (forall flags, GDALOpenEx (c_str path) flags = None) ->
  open (VString path :: more) w
  = (Throw Error "Error opening dataset", w).
Proof.
  intros Hmode Hogr Hgdal Hex.
  assert (Hr : open [VString path; VString "r"] w
               = (Throw Error "Error opening dataset", w)).
  { rewrite open_eval. unfold open_before_2, open_from_2.
    rewrite !c_str_idempotent, !Hogr, !Hgdal, !Hex.
    destruct (GDAL_VERSION_MAJOR <? 2); reflexivity. }
  destruct Hmode as [-> | (mode & rest & -> & Hmode)].
  - exact Hr.
  - rewrite open_eval. unfold open_before_2, open_from_2.
    rewrite !c_str_idempotent, !Hogr, !Hgdal, !Hex.
    destruct Hmode as [-> | ->]; destruct (GDAL_VERSION_MAJOR <? 2); reflexivity.
Qed.

(** ** The two geotransform methods together *)

(** X15: after a call of [invGeoTransform] that passed its checks, the
    output array is accepted by [applyGeoTransform] exactly when it held
    at most six elements before: a longer array keeps its length and is
    then rejected. *)
Theorem invGeoTransform_then_apply {lib : GDALLib} (dIn dOut dIn' g : gt)
    (a b : loc) (old : list value) (x y : number) (w : world) :
  heap w !! a = Some (OArray (gt_values g)) ->
  heap w !! b = Some (OArray old) ->
  is_throw (fst (applyGeoTransform dIn' [VRef b; VNumber x; VNumber y]
                   (snd (invGeoTransform dIn dOut [VRef a; VRef b] w))))
  = negb (length old <=? 6)%nat.
Proof.
  intros Ha Hb.
  rewrite (invGeoTransform_eval dIn dOut g a b old []) by assumption.
  cbn [snd].
  set (out := snd (GDALInvGeoTransform g dOut)).
  set (w1 := set_heap (<[b := OArray (gt_values out ++ drop 6 old)]> (heap w)) w).
  assert (Hb1 : heap w1 !! b = Some (OArray (gt_values out ++ drop 6 old))).
  { unfold w1, set_heap. cbn [heap]. apply lookup_insert_eq. }
  destruct (length old <=? 6)%nat eqn:El; cbn [negb].
  - apply Nat.leb_le in El.
    rewrite (drop_ge old 6) in Hb1 by exact El. rewrite app_nil_r in Hb1.
    rewrite (applyGeoTransform_eval dIn' out b _ x y) by (assumption || constructor).
    reflexivity.
  - apply Nat.leb_gt in El.
    rewrite (applyGeoTransform_rejects dIn' b (gt_values out ++ drop 6 old)).
    + reflexivity.
    + exact Hb1.
    + unfold acceptable. rewrite length_app, length_drop. cbn [gt_values length].
      replace (6 + (length old - 6) =? 6)%nat with false; [reflexivity|].
      symmetry. apply Nat.eqb_neq. lia.
Qed.

(** The transform of handle 3 inverted into itself. *)
Lemma invGeoTransform_in_place_witness :
  heap sample_world !! 3%positive = Some (OArray (gt_values sample_gt))
  /\ invGeoTransform (lib := spec_lib) nan_gt nan_gt [VRef 3%positive; VRef 3%positive]
       sample_world
     = (Ok (VNumber (of_Z (fst (GDALInvGeoTransform sample_gt nan_gt)))),
        set_heap (<[3%positive := OArray (gt_values (snd (GDALInvGeoTransform sample_gt nan_gt)))]>
                    (heap sample_world)) sample_world).
Proof.
  split; [reflexivity|].
  apply (invGeoTransform_in_place (lib := spec_lib) nan_gt nan_gt sample_gt
           3%positive [] sample_world).
  reflexivity.
Defined.

(** The point (1, 2) as the object of handle 2. *)
Lemma applyGeoTransform_point_forms_agree_witness :
  heap point_world !! 1%positive = Some (OArray (gt_values sample_gt))
  /\ point_given point_world (of_Z 1) (of_Z 2) [VRef 2%positive]
  /\ applyGeoTransform (lib := spec_lib) nan_gt [VRef 1%positive; VRef 2%positive] point_world
     = applyGeoTransform (lib := spec_lib) nan_gt
         [VRef 1%positive; VNumber (of_Z 1); VNumber (of_Z 2)] point_world.
Proof.
  assert (Hp : point_given point_world (of_Z 1) (of_Z 2) [VRef 2%positive]).
  { eapply point_object; reflexivity. }
  split; [reflexivity|]. split; [exact Hp|].
  exact (applyGeoTransform_point_forms_agree (lib := spec_lib) nan_gt 1%positive
           (gt_values sample_gt) [VRef 2%positive] (of_Z 1) (of_Z 2) point_world
           eq_refl Hp).
Defined.

(** The empty array of handle 4 given as the point. *)
Lemma applyGeoTransform_point_rejected_witness :
  heap sample_world !! 3%positive = Some (OArray (gt_values sample_gt))
  /\ heap sample_world !! 4%positive = Some (OArray [])
  /\ IsNumber (object_get (heap sample_world) 4%positive "x")
     && IsNumber (object_get (heap sample_world) 4%positive "y") = false
  /\ applyGeoTransform (lib := spec_lib) nan_gt [VRef 3%positive; VRef 4%positive] sample_world
     = (Throw Error "point must contain numerical properties x and y", sample_world).
Proof.
  split; [reflexivity|]. split; [reflexivity|]. split; [reflexivity|].
  apply (applyGeoTransform_point_rejected (lib := spec_lib) nan_gt sample_gt
           3%positive 4%positive (OArray []) sample_world); reflexivity.
Defined.

(** One degree of longitude with the precision left out. *)
Lemma decToDMS_success_witness :
  decToDMS (lib := spec_lib) [VNumber (of_Z 1); VString "Long"] sample_world
  = (Ok (SafeString_New (GDALDecToDMS (of_Z 1) "Long" 2)), sample_world)
  /\ exists n s token p,
       arg [VNumber (of_Z 1); VString "Long"] 0 = VNumber n
       /\ arg [VNumber (of_Z 1); VString "Long"] 1 = VString s
       /\ ((is_lat (c_str s) /\ token = "Lat"%string)
           \/ (is_long (c_str s) /\ token = "Long"%string))
       /\ int32 p
       /\ ((length [VNumber (of_Z 1); VString "Long"] <= 2)%nat -> p = 2)
       /\ SafeString_New (GDALDecToDMS (of_Z 1) "Long" 2)
          = SafeString_New (GDALDecToDMS n token p).
Proof.
  split; [reflexivity|].
  apply (decToDMS_success (lib := spec_lib)
           [VNumber (of_Z 1); VString "Long"]
           (SafeString_New (GDALDecToDMS (of_Z 1) "Long" 2)) sample_world sample_world).
  reflexivity.
Defined.

(** The mode w. *)
Lemma open_invalid_mode_witness :
  c_str "w" <> "r"%string
  /\ c_str "w" <> "r+"%string
  /\ open (olib := closed_lib 2) [VString "a.tif"; VString "w"] sample_world
     = (Throw Error invalid_open_mode, sample_world).
Proof.
  split; [discriminate|]. split; [discriminate|].
  apply (open_invalid_mode (olib := closed_lib 2) "a.tif" "w" [] sample_world);
    discriminate.
Defined.

(** The mode r+ with a library built before version 2. *)
Lemma open_nothing_opens_witness :
  ([VString "r+"] = []
   \/ (exists mode rest, [VString "r+"] = VString mode :: rest
         /\ (c_str mode = "r"%string \/ c_str mode = "r+"%string)))
  /\ (forall access, OGRSFDriverRegistrar_Open (OpenLib := closed_lib 1) (c_str "a.tif") access = None)
  /\ (forall access, GDALOpen (OpenLib := closed_lib 1) (c_str "a.tif") access = None)
  /\ (forall flags, GDALOpenEx (OpenLib := closed_lib 1) (c_str "a.tif") flags = None)
  /\ open (olib := closed_lib 1) [VString "a.tif"; VString "r+"] sample_world
     = (Throw Error "Error opening dataset", sample_world).
Proof.
  assert (Hmode : [VString "r+"] = []
                  \/ (exists mode rest, [VString "r+"] = VString mode :: rest
                        /\ (c_str mode = "r"%string \/ c_str mode = "r+"%string))).
  { right. exists "r+"%string, []. split; [reflexivity | right; reflexivity]. }
  split; [exact Hmode|]. split; [reflexivity|]. split; [reflexivity|].
  split; [reflexivity|].
  apply (open_nothing_opens (olib := closed_lib 1) "a.tif" [VString "r+"] sample_world);
    [exact Hmode | reflexivity | reflexivity | reflexivity].
Defined.

(** Handle 3 inverted into the empty array of handle 4, applied at (1, 2). *)
Lemma invGeoTransform_then_apply_witness :
  heap sample_world !! 3%positive = Some (OArray (gt_values sample_gt))
  /\ heap sample_world !! 4%positive = Some (OArray [])
  /\ is_throw (fst (applyGeoTransform (lib := spec_lib) nan_gt
                      [VRef 4%positive; VNumber (of_Z 1); VNumber (of_Z 2)]
                      (snd (invGeoTransform (lib := spec_lib) nan_gt nan_gt
                              [VRef 3%positive; VRef 4%positive] sample_world))))
     = negb (length (@nil value) <=? 6)%nat.
Proof.
  split; [reflexivity|]. split; [reflexivity|].
  apply (invGeoTransform_then_apply (lib := spec_lib) nan_gt nan_gt nan_gt sample_gt
           3%positive 4%positive [] (of_Z 1) (of_Z 2) sample_world); reflexivity.
Defined.
